(** * Forex dashboard: the live data reconciliation layer of [src/app/page.tsx]

    The dashboard component [Home] keeps a table of trading accounts and
    merges three sources into it: push events from the web socket, REST
    snapshots, and a local interpolation ticker.  This development embeds
    the state updaters of that component and the [SparkLine] coordinate
    computation, and settles the properties the specification states
    about them.

    Conventions of the embedding.
    - A JavaScript number is an exact rational ([Q]).  [NaN], the
      infinities and IEEE rounding are outside the model; every
      arithmetic statement below is about the idealised value.
    - An optional property ([lastUpdate?: number]) is an [option];
      a property of type ["up" | "down" | null] that may also be absent
      is an [option (option direction)]: [None] is [undefined],
      [Some None] is [null].
    - [Date.now()] and [Math.random()] are inputs of the step that
      calls them.
    - A React state cell is a field of [HomeState]; a function passed to
      a setter is a function on the cell's previous value. *)

From Stdlib Require Import QArith Qminmax Lia Lqa.
From stdpp Require Import base option list strings gmap fin_maps.

Local Open Scope string_scope.

(** ** JavaScript values *)

Definition number : Type := Q.

(** [ToBoolean] on a number: every number but zero is truthy. *)
Definition truthy (x : number) : bool := negb (Qeq_bool x 0%Q).

(** [a > b] and [a < b] on numbers. *)
Definition num_gt (a b : number) : bool :=
  match (a ?= b)%Q with Gt => true | _ => false end.
Definition num_lt (a b : number) : bool :=
  match (a ?= b)%Q with Lt => true | _ => false end.

(** [a !== b] on numbers. *)
Definition num_neq (a b : number) : bool := negb (Qeq_bool a b).

(** [a || b] where [a] is a possibly absent number. *)
Definition num_or (a : option number) (b : number) : number :=
  match a with
  | Some x => if truthy x then x else b
  | None => b
  end.

(** [a === b] where [b] comes out of a parsed message and may be absent. *)
Definition str_eq (a : string) (b : option string) : bool :=
  match b with
  | Some s => String.eqb a s
  | None => false
  end.

(** ** Data model (the interfaces at the head of [page.tsx]) *)

Inductive direction : Type := up | down.

Record AccountInfo : Type := mkAccountInfo {
  name : option string;
  login : option string;
  balance : option number;
  equity : option number;
  marginLevel : option number
}.

(** [profit: number | string] *)
Inductive profit_t : Type :=
| ProfitNum (n : number)
| ProfitStr (s : string).

Record Position : Type := mkPosition {
  id : string;
  symbol : string;
  type : string;
  volume : number;
  openPrice : number;
  currentPrice : number;
  profit : profit_t;
  lastUpdate : option number;
  priceChange : option (option direction);
  tickDirection : option (option direction);
  lastTickTime : option number;
  isRealData : option bool
}.

Record Order : Type := mkOrder {
  order_id : string;
  order_symbol : string;
  order_type : string;
  order_volume : number;
  order_openPrice : number;
  order_state : string
}.

Record AccountData : Type := mkAccountData {
  accountId : string;
  connected : option bool;
  connectedToBroker : option bool;
  accountInfo : option AccountInfo;
  positions : option (list Position);
  orders : option (list Order)
}.

Record PnLHistoryItem : Type := mkPnLHistoryItem {
  timestamp : number;
  value : number
}.

(** The [position] object of a [positionUpdated] message.  It is untyped
    in the source; here it carries any subset of the properties of
    [Position]. *)
Record PositionPayload : Type := mkPositionPayload {
  p_id : option string;
  p_symbol : option string;
  p_type : option string;
  p_volume : option number;
  p_openPrice : option number;
  p_currentPrice : option number;
  p_profit : option profit_t;
  p_lastUpdate : option number;
  p_priceChange : option (option direction);
  p_tickDirection : option (option direction);
  p_lastTickTime : option number;
  p_isRealData : option bool
}.

(** The body of [GET /accounts/{id}]: any subset of the properties of
    [AccountData]. *)
Record AccountPayload : Type := mkAccountPayload {
  a_accountId : option string;
  a_connected : option bool;
  a_connectedToBroker : option bool;
  a_accountInfo : option AccountInfo;
  a_positions : option (list Position);
  a_orders : option (list Order)
}.

(** A parsed web-socket message ([data] in [ws.onmessage]). *)
Record Message : Type := mkMessage {
  data_event : string;
  data_accountId : option string;
  data_positionId : option string;
  data_position : option PositionPayload;
  data_accountInformation : option AccountInfo;
  data_accounts : option (list AccountData)
}.

(** [{ ...o, k: v }] for an optional property: the new value when it is
    supplied, the old one otherwise. *)
Definition spread_opt {A : Type} (old new : option A) : option A :=
  match new with
  | Some v => Some v
  | None => old
  end.

(** [{ ...pos, ...payload }] *)
Definition spreadPosition (pos : Position) (payload : PositionPayload) : Position :=
  {| id := default (id pos) (p_id payload);
     symbol := default (symbol pos) (p_symbol payload);
     type := default (type pos) (p_type payload);
     volume := default (volume pos) (p_volume payload);
     openPrice := default (openPrice pos) (p_openPrice payload);
     currentPrice := default (currentPrice pos) (p_currentPrice payload);
     profit := default (profit pos) (p_profit payload);
     lastUpdate := spread_opt (lastUpdate pos) (p_lastUpdate payload);
     priceChange := spread_opt (priceChange pos) (p_priceChange payload);
     tickDirection := spread_opt (tickDirection pos) (p_tickDirection payload);
     lastTickTime := spread_opt (lastTickTime pos) (p_lastTickTime payload);
     isRealData := spread_opt (isRealData pos) (p_isRealData payload) |}.

(** [{ ...account, ...data }] *)
Definition spreadAccount (account : AccountData) (data : AccountPayload) : AccountData :=
  {| accountId := default (accountId account) (a_accountId data);
     connected := spread_opt (connected account) (a_connected data);
     connectedToBroker := spread_opt (connectedToBroker account) (a_connectedToBroker data);
     accountInfo := spread_opt (accountInfo account) (a_accountInfo data);
     positions := spread_opt (positions account) (a_positions data);
     orders := spread_opt (orders account) (a_orders data) |}.

(** [{ ...account, positions: ps }] *)
Definition withPositions (account : AccountData) (ps : list Position) : AccountData :=
  {| accountId := accountId account;
     connected := connected account;
     connectedToBroker := connectedToBroker account;
     accountInfo := accountInfo account;
     positions := Some ps;
     orders := orders account |}.

(** ** The account-table updaters of the event ingester *)

(** The function [updateAccountInfo] hands to [setAccounts]. *)
Definition updateAccountInfo (data : Message) (prevAccounts : list AccountData)
  : list AccountData :=
  map (fun account =>
         if str_eq (accountId account) (data_accountId data)
         then {| accountId := accountId account;
                 connected := connected account;
                 connectedToBroker := connectedToBroker account;
                 accountInfo := spread_opt (accountInfo account)
                                           (data_accountInformation data);
                 positions := positions account;
                 orders := orders account |}
         else account)
      prevAccounts.

(** The three-way comparison that yields [priceChange] and
    [tickDirection]. *)
Definition directionOf (a b : number) : option direction :=
  if num_gt a b then Some up
  else if num_lt a b then Some down
  else None.

(** The object a matched position is replaced with on [positionUpdated]. *)
Definition applyPositionUpdate (now : number) (payload : PositionPayload)
    (pos : Position) : Position :=
  let newPrice := num_or (p_currentPrice payload) (currentPrice pos) in
  let priceChange := directionOf newPrice (currentPrice pos) in
  let merged := spreadPosition pos payload in
  {| id := id merged;
     symbol := symbol merged;
     type := type merged;
     volume := volume merged;
     openPrice := openPrice merged;
     currentPrice := currentPrice merged;
     profit := profit merged;
     lastUpdate := Some now;
     priceChange := Some priceChange;
     tickDirection := Some None;
     lastTickTime := lastTickTime merged;
     isRealData := Some true |}.

(** The function the [positionUpdated] branch hands to [setAccounts]. *)
Definition positionUpdated (now : number) (data : Message)
    (payload : PositionPayload) (prevAccounts : list AccountData)
  : list AccountData :=
  map (fun account =>
         if negb (str_eq (accountId account) (data_accountId data)) then account
         else
           let positions := default [] (positions account) in
           let updatedPositions :=
             map (fun pos =>
                    if str_eq (id pos) (data_positionId data)
                    then applyPositionUpdate now payload pos
                    else pos)
                 positions in
           withPositions account updatedPositions)
      prevAccounts.

(** The function the [positionRemoved] branch hands to [setAccounts]. *)
Definition positionRemoved (data : Message) (prevAccounts : list AccountData)
  : list AccountData :=
  map (fun account =>
         if negb (str_eq (accountId account) (data_accountId data)) then account
         else
           withPositions account
             (List.filter (fun p => negb (str_eq (id p) (data_positionId data)))
                          (default [] (positions account))))
      prevAccounts.

(** ** Component state *)

(** The state cells of [Home] that the reconciliation layer reads or
    writes ([prevNetPnLRef] is the [useRef] cell). *)
Record HomeState : Type := mkHomeState {
  accounts : list AccountData;
  selectedAccount : option string;
  netPnL : number;
  pnlBySymbol : gmap string number;
  lastPriceUpdate : number;
  pnlHistory : list PnLHistoryItem;
  pnlHistoryBySymbol : gmap string (list PnLHistoryItem);
  realTimeEnabled : bool;
  prevNetPnLRef : number;
  pnlChange : option direction;
  lastRealDataUpdate : option number;
  isRefreshing : bool
}.

Definition setAccounts (f : list AccountData -> list AccountData) (s : HomeState)
  : HomeState :=
  mkHomeState (f (accounts s)) (selectedAccount s) (netPnL s) (pnlBySymbol s)
    (lastPriceUpdate s) (pnlHistory s) (pnlHistoryBySymbol s) (realTimeEnabled s)
    (prevNetPnLRef s) (pnlChange s) (lastRealDataUpdate s) (isRefreshing s).

Definition setLastPriceUpdate (t : number) (s : HomeState) : HomeState :=
  mkHomeState (accounts s) (selectedAccount s) (netPnL s) (pnlBySymbol s)
    t (pnlHistory s) (pnlHistoryBySymbol s) (realTimeEnabled s)
    (prevNetPnLRef s) (pnlChange s) (lastRealDataUpdate s) (isRefreshing s).

Definition setLastRealDataUpdate (t : number) (s : HomeState) : HomeState :=
  mkHomeState (accounts s) (selectedAccount s) (netPnL s) (pnlBySymbol s)
    (lastPriceUpdate s) (pnlHistory s) (pnlHistoryBySymbol s) (realTimeEnabled s)
    (prevNetPnLRef s) (pnlChange s) (Some t) (isRefreshing s).

Definition setIsRefreshing (b : bool) (s : HomeState) : HomeState :=
  mkHomeState (accounts s) (selectedAccount s) (netPnL s) (pnlBySymbol s)
    (lastPriceUpdate s) (pnlHistory s) (pnlHistoryBySymbol s) (realTimeEnabled s)
    (prevNetPnLRef s) (pnlChange s) (lastRealDataUpdate s) b.

Definition setPnlHistory (f : list PnLHistoryItem -> list PnLHistoryItem)
    (s : HomeState) : HomeState :=
  mkHomeState (accounts s) (selectedAccount s) (netPnL s) (pnlBySymbol s)
    (lastPriceUpdate s) (f (pnlHistory s)) (pnlHistoryBySymbol s) (realTimeEnabled s)
    (prevNetPnLRef s) (pnlChange s) (lastRealDataUpdate s) (isRefreshing s).

Definition setPnlHistoryBySymbol
    (f : gmap string (list PnLHistoryItem) -> gmap string (list PnLHistoryItem))
    (s : HomeState) : HomeState :=
  mkHomeState (accounts s) (selectedAccount s) (netPnL s) (pnlBySymbol s)
    (lastPriceUpdate s) (pnlHistory s) (f (pnlHistoryBySymbol s)) (realTimeEnabled s)
    (prevNetPnLRef s) (pnlChange s) (lastRealDataUpdate s) (isRefreshing s).

(** The net-PnL effect writes four cells at once. *)
Definition setPnl (total : number) (bySymbol : gmap string number)
    (prev : number) (change : option direction) (s : HomeState) : HomeState :=
  mkHomeState (accounts s) (selectedAccount s) total bySymbol
    (lastPriceUpdate s) (pnlHistory s) (pnlHistoryBySymbol s) (realTimeEnabled s)
    prev change (lastRealDataUpdate s) (isRefreshing s).

(** [selectedAccountData]: the first account whose id is the selected one. *)
Definition selectedAccountData (s : HomeState) : option AccountData :=
  List.find (fun acc => str_eq (accountId acc) (selectedAccount s)) (accounts s).

(** [selectedAccountData?.positions] *)
Definition selectedPositions (s : HomeState) : option (list Position) :=
  match selectedAccountData s with
  | Some acc => positions acc
  | None => None
  end.

(** ** PnL history sampling (the 5 s interval) *)

(** [l.slice(-n)]: the last [n] elements, all of them when there are
    fewer. *)
Definition slice_last {A : Type} (n : nat) (l : list A) : list A :=
  drop (length l - n) l.

(** The updater handed to [setPnlHistoryBySymbol] for one entry of
    [pnlBySymbol]. *)
Definition recordSymbol (now : number) (entry : string * number)
    (prev : gmap string (list PnLHistoryItem)) : gmap string (list PnLHistoryItem) :=
  let symbolHistory := default [] (prev !! entry.1) in
  let newSymbolHistory :=
    slice_last 60 (symbolHistory ++ [mkPnLHistoryItem now entry.2]) in
  <[entry.1 := newSymbolHistory]> prev.

(** One firing of the sampling interval. *)
Definition recordPnLHistory (now : number) (s : HomeState) : HomeState :=
  if num_neq (netPnL s) 0%Q then
    let newHistoryItem := mkPnLHistoryItem now (netPnL s) in
    let s1 := setPnlHistory (fun prev => slice_last 60 (prev ++ [newHistoryItem])) s in
    setPnlHistoryBySymbol
      (fun prev => foldl (fun acc entry => recordSymbol now entry acc) prev
                         (map_to_list (pnlBySymbol s)))
      s1
  else s.

(** ** The sparkline *)

(** [Math.max(...data)] and [Math.min(...data)] for [data = x :: rest]. *)
Definition Math_max (x : number) (rest : list number) : number := foldl Qmax x rest.
Definition Math_min (x : number) (rest : list number) : number := foldl Qmin x rest.

Definition ofNat (n : nat) : number := inject_Z (Z.of_nat n).

(** [max - min || 1] *)
Definition rangeOf (max min : number) : number :=
  (if truthy (max - min) then max - min else 1)%Q.

(** The coordinates [SparkLine] computes: [None] when the component
    returns [null], otherwise the points of the polyline in order.  The
    rendering of each pair as the text [x,y] and the surrounding SVG
    markup are not part of the model. *)
Definition SparkLine (data : list number) : option (list (number * number)) :=
  match data with
  | [] | [_] => None
  | v0 :: rest =>
      let max := Math_max v0 rest in
      let min := Math_min v0 rest in
      let range := rangeOf max min in
      Some (imap (fun index value =>
                    let x := (ofNat index / ofNat (length data - 1) * 100)%Q in
                    let y := (100 - (value - min) / range * 100)%Q in
                    (x, y))
                 data)
  end.

(** ** Interpolation ticker and aggregator *)

Section Aggregation.

(** [Number(s)] on a string is the language's own conversion; the
    updaters below only pass its result on. *)
Variable StringToNumber : string -> number.

(** [Number(position.profit)] *)
Definition Number (p : profit_t) : number :=
  match p with
  | ProfitNum n => n
  | ProfitStr s => StringToNumber s
  end.

(** [(Math.random() * 0.0004 + 0.0001) * (Math.random() > 0.5 ? 1 : -1)],
    [r1] and [r2] being the two draws in the order they are made. *)
Definition changePercentOf (r1 r2 : number) : number :=
  ((r1 * (4 # 10000) + (1 # 10000)) * (if num_gt r2 (1 # 2) then 1 else -1))%Q.

(** The object a position with real data is replaced with on a tick. *)
Definition interpolatePosition (now changePercent : number) (position : Position)
  : Position :=
  let priceChange' := (currentPrice position * changePercent)%Q in
  let newPrice := (currentPrice position + priceChange')%Q in
  let tickDirection' := directionOf priceChange' 0%Q in
  let newProfit :=
    if String.eqb (type position) "POSITION_TYPE_BUY"
    then (Number (profit position) + priceChange' * volume position)%Q
    else (Number (profit position) - priceChange' * volume position)%Q in
  {| id := id position;
     symbol := symbol position;
     type := type position;
     volume := volume position;
     openPrice := openPrice position;
     currentPrice := newPrice;
     profit := ProfitNum newProfit;
     lastUpdate := lastUpdate position;
     priceChange := priceChange position;
     tickDirection := Some tickDirection';
     lastTickTime := Some now;
     isRealData := Some false |}.

(** [position.lastUpdate] used as a condition. *)
Definition hasLastUpdate (position : Position) : bool :=
  match lastUpdate position with
  | Some t => truthy t
  | None => false
  end.

(** [account.positions.map(...)] of the tick.  [random k] is the result
    of the [k]-th call of [Math.random()]; the number of calls made so
    far is threaded through. *)
Fixpoint tickPositions (now : number) (random : nat -> number) (k : nat)
    (ps : list Position) : list Position * nat :=
  match ps with
  | [] => ([], k)
  | position :: rest =>
      if negb (hasLastUpdate position) then
        let '(rest', k') := tickPositions now random k rest in
        (position :: rest', k')
      else
        let changePercent := changePercentOf (random k) (random (S k)) in
        let '(rest', k') := tickPositions now random (S (S k)) rest in
        (interpolatePosition now changePercent position :: rest', k')
  end.

(** The function the tick hands to [setAccounts]. *)
Fixpoint tickAccounts (now : number) (random : nat -> number) (k : nat)
    (selected : option string) (prevAccounts : list AccountData)
  : list AccountData * nat :=
  match prevAccounts with
  | [] => ([], k)
  | account :: rest =>
      if negb (str_eq (accountId account) selected) then
        let '(rest', k') := tickAccounts now random k selected rest in
        (account :: rest', k')
      else
        match positions account with
        | None | Some [] =>
            let '(rest', k') := tickAccounts now random k selected rest in
            (account :: rest', k')
        | Some ps =>
            let '(updatedPositions, k1) := tickPositions now random k ps in
            let '(rest', k') := tickAccounts now random k1 selected rest in
            (withPositions account updatedPositions :: rest', k')
        end
  end.

(** One firing of the 500 ms interval.  The interval exists only while
    [realTimeEnabled] holds and the selected account has a position
    array. *)
Definition interpolationTick (now : number) (random : nat -> number)
    (s : HomeState) : HomeState :=
  if negb (realTimeEnabled s) then s
  else match selectedPositions s with
       | None => s
       | Some _ =>
           setLastPriceUpdate now
             (setAccounts
                (fun prevAccounts =>
                   (tickAccounts now random 0 (selectedAccount s) prevAccounts).1)
                s)
       end.

(** [positions.reduce((sum, position) => sum + Number(position.profit), 0)] *)
Definition totalPnLOf (ps : list Position) : number :=
  foldl (fun sum position => (sum + Number (profit position))%Q) 0%Q ps.

(** The per-symbol grouping loop. *)
Definition symbolPnLOf (ps : list Position) : gmap string number :=
  foldl (fun symbolPnL position =>
           let current := num_or (symbolPnL !! symbol position) 0%Q in
           <[symbol position := (current + Number (profit position))%Q]> symbolPnL)
        ∅ ps.

(** The effect that recomputes net PnL.  Clearing [pnlChange] two
    seconds later is a separate timer and not part of this step. *)
Definition netPnLEffect (s : HomeState) : HomeState :=
  match selectedPositions s with
  | Some ps =>
      let totalPnL := totalPnLOf ps in
      let change :=
        if num_neq (prevNetPnLRef s) 0%Q then
          if num_gt totalPnL (prevNetPnLRef s) then Some up
          else if num_lt totalPnL (prevNetPnLRef s) then Some down
          else pnlChange s
        else pnlChange s in
      setPnl totalPnL (symbolPnLOf ps) totalPnL change s
  | None => setPnl 0%Q ∅ 0%Q (pnlChange s) s
  end.

End Aggregation.

(** ** Event ingestion and account-detail refresh *)

(** A REST request issued by a handler. *)
Inductive Cmd : Type :=
| FetchAccountDetail (accountId : option string)
| FetchAccounts.

(** The state a render's closures have captured.  [refreshAccountDetails]
    is a [useCallback] over [isRefreshing]: the function a render creates
    reads that render's value of the cell, not the current one. *)
Record Render : Type := mkRender {
  captured_isRefreshing : bool
}.

Definition render (s : HomeState) : Render :=
  {| captured_isRefreshing := isRefreshing s |}.

(** [{ ...pos, isRealData: true, lastUpdate: Date.now() }] *)
Definition markReal (now : number) (pos : Position) : Position :=
  {| id := id pos;
     symbol := symbol pos;
     type := type pos;
     volume := volume pos;
     openPrice := openPrice pos;
     currentPrice := currentPrice pos;
     profit := profit pos;
     lastUpdate := Some now;
     priceChange := priceChange pos;
     tickDirection := tickDirection pos;
     lastTickTime := lastTickTime pos;
     isRealData := Some true |}.

(** [refreshAccountDetails] up to its [await fetch(...)]. *)
Definition refreshAccountDetails (r : Render) (accountId : option string)
    (s : HomeState) : HomeState * list Cmd :=
  if captured_isRefreshing r then (s, [])
  else (setIsRefreshing true s, [FetchAccountDetail accountId]).

(** How a fetch settles. *)
Inductive Response : Type :=
| ResponseOk (data : AccountPayload)
| ResponseNotOk
| FetchRejected.

(** [refreshAccountDetails] from the point its fetch settles. *)
Definition refreshAccountDetails_settled (now : number) (accountId' : option string)
    (response : Response) (s : HomeState) : HomeState :=
  let s1 :=
    match response with
    | ResponseOk data =>
        let data' :=
          {| a_accountId := a_accountId data;
             a_connected := a_connected data;
             a_connectedToBroker := a_connectedToBroker data;
             a_accountInfo := a_accountInfo data;
             a_positions := map (markReal now) <$> a_positions data;
             a_orders := a_orders data |} in
        setLastRealDataUpdate now
          (setAccounts
             (map (fun account =>
                     if str_eq (accountId account) accountId'
                     then spreadAccount account data'
                     else account))
             s)
    | ResponseNotOk | FetchRejected => s
    end in
  setIsRefreshing false s1.

(** [updatePositions], called from the socket handler of render [r]. *)
Definition updatePositions (r : Render) (now : number) (data : Message)
    (s : HomeState) : HomeState * list Cmd :=
  match String.eqb (data_event data) "positionUpdated", data_position data with
  | true, Some payload =>
      (setLastPriceUpdate now (setAccounts (positionUpdated now data payload) s), [])
  | _, _ =>
      if String.eqb (data_event data) "positionRemoved" then
        (setAccounts (positionRemoved data) s, [])
      else if String.eqb (data_event data) "positionsUpdated" then
        refreshAccountDetails r (data_accountId data) s
      else (s, [])
  end.

(** [account.positions = account.positions.map(markReal)] of the
    [initialAccounts] branch. *)
Definition markAccountReal (now : number) (account : AccountData) : AccountData :=
  match positions account with
  | Some ps => withPositions account (map (markReal now) ps)
  | None => account
  end.

(** [ws.onmessage], installed by the mount effect of render [r].  The
    result is [None] where the handler stores [undefined] in [accounts]
    ([initialAccounts] without an [accounts] array), which the state type
    does not represent. *)
Definition onmessage (r : Render) (now : number) (data : Message) (s : HomeState)
  : option (HomeState * list Cmd) :=
  let event := data_event data in
  if String.eqb event "initialAccounts" then
    match data_accounts data with
    | Some accs =>
        Some (setLastRealDataUpdate now
                (setAccounts (fun _ => map (markAccountReal now) accs) s), [])
    | None => None
    end
  else if String.eqb event "accountSynchronized"
          || String.eqb event "accountInformationUpdated" then
    Some (setLastRealDataUpdate now (setAccounts (updateAccountInfo data) s), [])
  else if String.eqb event "positionsUpdated"
          || String.eqb event "positionUpdated"
          || String.eqb event "positionRemoved" then
    let '(s1, cmds) := updatePositions r now data s in
    Some (setLastRealDataUpdate now s1, cmds)
  else if String.eqb event "orderCompleted" then
    let '(s1, cmds) := refreshAccountDetails r (data_accountId data) s in
    Some (setLastRealDataUpdate now s1, cmds)
  else if String.eqb event "accountConnected"
          || String.eqb event "accountDisconnected" then
    Some (s, [FetchAccounts])
  else Some (s, []).

(** ** The session: handlers, closures and outstanding requests *)

(** The component state together with the account-detail fetches that
    have been issued and have not settled yet, oldest first. *)
Record Session : Type := mkSession {
  home : HomeState;
  inFlight : list (option string)
}.

(** The state of the first render ([useState] initial values).  The
    socket is opened by an effect with an empty dependency list, so
    [ws.onmessage] keeps the closures of this render for the whole
    session. *)
Definition initialState (now : number) : HomeState :=
  {| accounts := [];
     selectedAccount := None;
     netPnL := 0%Q;
     pnlBySymbol := ∅;
     lastPriceUpdate := now;
     pnlHistory := [];
     pnlHistoryBySymbol := ∅;
     realTimeEnabled := true;
     prevNetPnLRef := 0%Q;
     pnlChange := None;
     lastRealDataUpdate := None;
     isRefreshing := false |}.

Definition mountRender : Render := {| captured_isRefreshing := false |}.

Definition setSelectedAccount (a : option string) (s : HomeState) : HomeState :=
  mkHomeState (accounts s) a (netPnL s) (pnlBySymbol s)
    (lastPriceUpdate s) (pnlHistory s) (pnlHistoryBySymbol s) (realTimeEnabled s)
    (prevNetPnLRef s) (pnlChange s) (lastRealDataUpdate s) (isRefreshing s).

(** [viewAccountDetails], the click handler of render [r], up to the
    [await] inside [refreshAccountDetails]. *)
Definition viewAccountDetails (r : Render) (accountId : string) (s : HomeState)
  : HomeState * list Cmd :=
  refreshAccountDetails r (Some accountId) (setSelectedAccount (Some accountId) s).

(** The account-detail fetches among the requests a handler issued. *)
Definition detailFetches (cmds : list Cmd) : list (option string) :=
  omap (fun c => match c with
                 | FetchAccountDetail a => Some a
                 | FetchAccounts => None
                 end) cmds.

Inductive Input : Type :=
| WsMessage (now : number) (data : Message)
| DetailSettled (now : number) (i : nat) (response : Response)
| ViewAccountDetails (accountId : string).

(** One run-to-completion step of the session.  A socket message runs
    the handler of the mount render; a click runs the handler of the
    render of the current state; the settling of the [i]-th outstanding
    fetch resumes the [refreshAccountDetails] call that issued it. *)
Definition step (x : Input) (ss : Session) : option Session :=
  match x with
  | WsMessage now data =>
      match onmessage mountRender now data (home ss) with
      | Some (s', cmds) => Some (mkSession s' (inFlight ss ++ detailFetches cmds))
      | None => None
      end
  | DetailSettled now i response =>
      match inFlight ss !! i with
      | Some a =>
          Some (mkSession (refreshAccountDetails_settled now a response (home ss))
                          (delete i (inFlight ss)))
      | None => None
      end
  | ViewAccountDetails a =>
      let '(s', cmds) := viewAccountDetails (render (home ss)) a (home ss) in
      Some (mkSession s' (inFlight ss ++ detailFetches cmds))
  end.

Fixpoint run (xs : list Input) (ss : Session) : option Session :=
  match xs with
  | [] => Some ss
  | x :: rest =>
      match step x ss with
      | Some ss' => run rest ss'
      | None => None
      end
  end.

(** ** REST handlers of [Home] *)

(** A value a promise rejects with: an [Error] object with its message,
    or anything else. *)
Inductive Thrown : Type :=
| ErrorObject (message : string)
| NotAnError.

(** [err instanceof Error ? err.message : fallback] *)
Definition errorMessage (e : Thrown) (fallback : string) : string :=
  match e with
  | ErrorObject message => message
  | NotAnError => fallback
  end.

(** How an [async] function ends. *)
Inductive Outcome (A : Type) : Type :=
| Resolved (v : A)
| Rejected (e : Thrown).
Arguments Resolved {A} v.
Arguments Rejected {A} e.

(** [a || b] on strings: the empty string is falsy. *)
Definition str_or (a : option string) (b : string) : string :=
  match a with
  | Some x => if String.eqb x "" then b else x
  | None => b
  end.

Record AccountFormData : Type := mkAccountFormData {
  form_login : string;
  form_server : string;
  form_password : string;
  form_name : option string
}.

(** The requests the handlers below send. *)
Inductive Request : Type :=
| GetAccounts
| PostAccount (formData : AccountFormData)
| DeleteAccount (accountId : string).

(** How [GET /accounts] settles. *)
Inductive ListResponse : Type :=
| ListOk (data : list AccountData)
| ListNotOk
| ListRejected (e : Thrown).

(** The cells [loading] and [error] of [Home]. *)
Record LoadCells : Type := mkLoadCells {
  loading : bool;
  page_error : option string
}.

(** [fetchAccounts] of the mount effect, from the point its fetch
    settles. *)
Definition fetchAccounts (response : ListResponse) (s : HomeState) (c : LoadCells)
  : HomeState * LoadCells :=
  match response with
  | ListOk data =>
      let s1 := setAccounts (fun _ => data) s in
      let s2 := match data with
                | first :: _ => setSelectedAccount (Some (accountId first)) s1
                | [] => s1
                end in
      (s2, mkLoadCells false (page_error c))
  | ListNotOk => (s, mkLoadCells false (Some "Failed to fetch accounts"))
  | ListRejected e => (s, mkLoadCells false (Some (errorMessage e "An error occurred")))
  end.

(** [refreshAccounts] from the point its fetch settles; it swallows
    every failure. *)
Definition refreshAccounts (response : ListResponse) (s : HomeState) : HomeState :=
  match response with
  | ListOk data => setAccounts (fun _ => data) s
  | ListNotOk | ListRejected _ => s
  end.

(** How [POST /accounts] settles.  The body of a failure is [None] when
    it is not JSON, otherwise its [error] property. *)
Inductive PostResponse : Type :=
| PostOk
| PostNotOk (body : option (option string))
| PostRejected (e : Thrown).

(** [addAccount].  The responses are those the server would give; the
    third component lists the requests actually sent, in order. *)
Definition addAccount (formData : AccountFormData) (post : PostResponse)
    (listResponse : ListResponse) (s : HomeState) : Outcome bool * HomeState * list Request :=
  if String.eqb (form_login formData) ""
     || String.eqb (form_server formData) ""
     || String.eqb (form_password formData) "" then
    (Rejected (ErrorObject "All required fields must be filled"), s, [])
  else
    match post with
    | PostRejected e => (Rejected e, s, [PostAccount formData])
    | PostNotOk body =>
        let errorData := default (Some "Failed to add account") body in
        (Rejected (ErrorObject (str_or errorData "Failed to add account")), s,
         [PostAccount formData])
    | PostOk =>
        (Resolved true, refreshAccounts listResponse s, [PostAccount formData; GetAccounts])
    end.

(** How [DELETE /accounts/{id}] settles. *)
Inductive DeleteResponse : Type :=
| DeleteOk
| DeleteNotOk
| DeleteRejected (e : Thrown).

(** The cells [removeAccount] reads through its closure. *)
Record HomeClosure : Type := mkHomeClosure {
  captured_accounts : list AccountData;
  captured_selectedAccount : option string
}.

Definition homeClosure (s : HomeState) : HomeClosure :=
  {| captured_accounts := accounts s;
     captured_selectedAccount := selectedAccount s |}.

(** [removeAccount], created by the render with closure [c]. *)
Definition removeAccount (c : HomeClosure) (accountId' : string)
    (del : DeleteResponse) (listResponse : ListResponse) (s : HomeState)
  : Outcome bool * HomeState * list Request :=
  match del with
  | DeleteRejected e => (Rejected e, s, [DeleteAccount accountId'])
  | DeleteNotOk =>
      (Rejected (ErrorObject "Failed to remove account"), s, [DeleteAccount accountId'])
  | DeleteOk =>
      let s1 := refreshAccounts listResponse s in
      let s2 :=
        if str_eq accountId' (captured_selectedAccount c) then
          setSelectedAccount
            (match captured_accounts c with
             | first :: _ :: _ => Some (accountId first)
             | _ => None
             end) s1
        else s1 in
      (Resolved true, s2, [DeleteAccount accountId'; GetAccounts])
  end.

(** ** The account modal *)

Record ModalState : Type := mkModalState {
  formData : AccountFormData;
  isSubmitting : bool;
  modal_error : option string
}.

Definition emptyForm : AccountFormData := mkAccountFormData "" "" "" (Some "").

(** [handleSubmit] of [AccountModal]; the second component tells whether
    [onClose] was called. *)
Definition handleSubmit (onSubmit : AccountFormData -> Outcome bool) (m : ModalState)
  : ModalState * bool :=
  match onSubmit (formData m) with
  | Resolved true => (mkModalState emptyForm false None, true)
  | Resolved false => (mkModalState (formData m) false None, false)
  | Rejected e =>
      (mkModalState (formData m) false (Some (errorMessage e "An error occurred")),
       false)
  end.

(** Submitting the modal with [addAccount] as [onSubmit]. *)
Definition submitAccount (post : PostResponse) (listResponse : ListResponse)
    (m : ModalState) (s : HomeState)
  : ModalState * bool * HomeState * list Request :=
  let '(outcome, s', requests) := addAccount (formData m) post listResponse s in
  (handleSubmit (fun _ => outcome) m, s', requests).

(** ** Derived display values of [Home] *)

(** The data-quality dot and its caption; [None] when nothing is drawn
    because [lastRealDataUpdate] is falsy.  Each expression calls
    [Date.now()] once per age test it reaches: [now1] is the reading of
    the 4-second test, [now2] that of the 10-second test. *)
Definition dataQualityColor (now1 now2 : number) (s : HomeState) : option string :=
  match lastRealDataUpdate s with
  | Some t =>
      if truthy t then
        Some (if isRefreshing s then "bg-blue-500"
              else if num_lt (now1 - t)%Q 4000%Q then "bg-emerald-500"
              else if num_lt (now2 - t)%Q 10000%Q then "bg-yellow-500"
              else "bg-red-500")
      else None
  | None => None
  end.

Definition dataQualityLabel (now1 now2 : number) (s : HomeState) : option string :=
  match lastRealDataUpdate s with
  | Some t =>
      if truthy t then
        Some (if isRefreshing s then "Refreshing"
              else if num_lt (now1 - t)%Q 4000%Q then "Real-time"
              else if num_lt (now2 - t)%Q 10000%Q then "Recent"
              else "Stale")
      else None
  | None => None
  end.

(** [pnlHistory.length > 1 && <SparkLine data={...} />]: [None] when the
    component is not rendered, otherwise what it returns. *)
Definition netSparkLine (s : HomeState) : option (option (list (number * number))) :=
  if Nat.ltb 1 (length (pnlHistory s))
  then Some (SparkLine (map value (pnlHistory s)))
  else None.

(** The sparkline of one symbol card ([hasHistory && <SparkLine ... />]). *)
Definition symbolSparkLine (symbol' : string) (s : HomeState)
  : option (option (list (number * number))) :=
  match pnlHistoryBySymbol s !! symbol' with
  | Some history =>
      if Nat.ltb 1 (length history) then Some (SparkLine (map value history)) else None
  | None => None
  end.

(** ** Authentication *)

(** The cells of [AuthProvider]. *)
Record AuthState : Type := mkAuthState {
  isAuthenticated : bool;
  isLoading : bool
}.

(** [useState(false)], [useState(true)] *)
Definition initialAuth : AuthState := mkAuthState false true.

(** [verifyAuth] of the token-based provider: a non-empty [authToken] in
    local storage authenticates. *)
Definition verifyAuth (localStorage : gmap string string) (a : AuthState) : AuthState :=
  match localStorage !! "authToken" with
  | Some token => mkAuthState (negb (String.eqb token "")) false
  | None => mkAuthState false false
  end.

(** How [POST /login] settles.  On success [token] is the [token]
    property of the body, if it has one; a failure carries the body's
    [message]. *)
Inductive LoginResponse : Type :=
| LoginOk (token : option string)
| LoginNotOk (message : option string)
| LoginRejected (e : Thrown).

(** [login] of the token-based provider: local storage, cells and
    navigations after the call.  A failure is logged and swallowed. *)
Definition tokenLogin (response : LoginResponse) (localStorage : gmap string string)
    (a : AuthState) : Outcome unit * gmap string string * AuthState * list string :=
  match response with
  | LoginOk token =>
      (Resolved tt, <["authToken" := default "undefined" token]> localStorage,
       mkAuthState true false, ["/"])
  | LoginNotOk _ | LoginRejected _ =>
      (Resolved tt, localStorage, mkAuthState (isAuthenticated a) false, [])
  end.

(** [login] of the cookie-based provider: it has no [catch]. *)
Definition cookieLogin (response : LoginResponse) (a : AuthState)
  : Outcome unit * AuthState * list string :=
  match response with
  | LoginOk _ => (Resolved tt, mkAuthState true false, ["/"])
  | LoginNotOk message =>
      (Rejected (ErrorObject (str_or message "Login failed")),
       mkAuthState (isAuthenticated a) false, [])
  | LoginRejected e => (Rejected e, mkAuthState (isAuthenticated a) false, [])
  end.

(** How [POST /logout] settles. *)
Inductive LogoutResponse : Type :=
| LogoutOk
| LogoutNotOk
| LogoutRejected (e : Thrown).

(** [logout] of either provider: a failure is logged and swallowed. *)
Definition logout (response : LogoutResponse) (a : AuthState)
  : Outcome unit * AuthState * list string :=
  match response with
  | LogoutOk => (Resolved tt, mkAuthState false false, ["/login"])
  | LogoutNotOk | LogoutRejected _ =>
      (Resolved tt, mkAuthState (isAuthenticated a) false, [])
  end.

(** The cells of [LoginPage]. *)
Record LoginPageState : Type := mkLoginPageState {
  login_error : string;
  login_isLoading : bool
}.

(** [handleSubmit] of [LoginPage], given how [login] ended: the cells
    and the navigations of the page itself. *)
Definition loginSubmit (outcome : Outcome unit) : LoginPageState * list string :=
  match outcome with
  | Resolved _ => (mkLoginPageState "" false, ["/"])
  | Rejected e => (mkLoginPageState (errorMessage e "Invalid credentials") false, [])
  end.

(** The cells [isLoggingOut] and [logoutError] of [Home]. *)
Record LogoutCells : Type := mkLogoutCells {
  isLoggingOut : bool;
  logoutError : option string
}.

(** [handleLogout] of [Home], given how [logout] ended. *)
Definition handleLogout (outcome : Outcome unit) : LogoutCells * list string :=
  match outcome with
  | Resolved _ => (mkLogoutCells false None, ["/login"])
  | Rejected e => (mkLogoutCells false (Some (errorMessage e "Logout failed")), [])
  end.

(** The redirect effect of [Home]. *)
Definition authRedirect (a : AuthState) : list string :=
  if negb (isLoading a) && negb (isAuthenticated a) then ["/login"] else [].

(** The effect of [AuthGuard]. *)
Definition AuthGuard (localStorage : gmap string string) : list string :=
  match localStorage !! "loggedIn" with
  | Some isLoggedIn => if String.eqb isLoggedIn "true" then [] else ["/login"]
  | None => ["/login"]
  end.

(** ** The dashboard as a whole *)

(** Everything that can run against the component state: a session
    input, a firing of the interpolation interval, a run of the net-PnL
    effect, a firing of the sampling interval, the settling of the
    [GET /accounts] of the mount effect, and the settling of a
    [GET /accounts] sent by [refreshAccounts] (after an
    [accountConnected] or [accountDisconnected] message, or from
    [addAccount] and [removeAccount]). *)
Inductive Event : Type :=
| SessionInput (x : Input)
| InterpolationTick (now : number) (random : nat -> number)
| NetPnLEffect
| RecordPnL (now : number)
| MountFetched (response : ListResponse)
| AccountsFetched (response : ListResponse).

Section Dashboard.

Variable StringToNumber : string -> number.

Definition react (e : Event) (ss : Session) : option Session :=
  match e with
  | SessionInput x => step x ss
  | InterpolationTick now random =>
      Some (mkSession (interpolationTick StringToNumber now random (home ss))
                      (inFlight ss))
  | NetPnLEffect =>
      Some (mkSession (netPnLEffect StringToNumber (home ss)) (inFlight ss))
  | RecordPnL now =>
      Some (mkSession (recordPnLHistory now (home ss)) (inFlight ss))
  | MountFetched response =>
      Some (mkSession (fetchAccounts response (home ss) (mkLoadCells true None)).1
                      (inFlight ss))
  | AccountsFetched response =>
      Some (mkSession (refreshAccounts response (home ss)) (inFlight ss))
  end.

Fixpoint reactAll (es : list Event) (ss : Session) : option Session :=
  match es with
  | [] => Some ss
  | e :: rest =>
      match react e ss with
      | Some ss' => reactAll rest ss'
      | None => None
      end
  end.

End Dashboard.

(** * Specification-side definitions *)

(** ** Relations between the state before and after a step *)

(** What one tick may do to a position: nothing at all when it has no
    (truthy) [lastUpdate]; otherwise it keeps [lastUpdate] and marks the
    position as estimated. *)
Definition tickedPosition (p p' : Position) : Prop :=
  (hasLastUpdate p = false /\ p' = p) \/
  (hasLastUpdate p = true /\ lastUpdate p' = lastUpdate p /\
   isRealData p' = Some false).

(** What one tick may do to an account: nothing, or replace its positions
    pointwise. *)
Definition tickedAccount (a a' : AccountData) : Prop :=
  a' = a \/
  exists ps ps',
    positions a = Some ps /\ a' = withPositions a ps' /\
    Forall2 tickedPosition ps ps'.

(** The invariant of the data model: a position flagged as real data
    carries a [lastUpdate]. *)
Definition realDataStamped (p : Position) : Prop :=
  isRealData p = Some true -> is_Some (lastUpdate p).

Definition storeStamped (accs : list AccountData) : Prop :=
  Forall (fun a => Forall realDataStamped (default [] (positions a))) accs.

(** What a [positionRemoved] message for position [X] of account [A]
    does to one account. *)
Definition removedFrom (A X : string) (a a' : AccountData) : Prop :=
  (accountId a <> A -> a' = a) /\
  (accountId a = A ->
   exists ps',
     a' = withPositions a ps' /\
     Forall (fun p => id p <> X) ps' /\
     ps' = List.filter (fun p => negb (String.eqb (id p) X))
                       (default [] (positions a))).

(** [{ ...pos, priceChange: null }] *)
Definition withNullPriceChange (pos : Position) : Position :=
  {| id := id pos;
     symbol := symbol pos;
     type := type pos;
     volume := volume pos;
     openPrice := openPrice pos;
     currentPrice := currentPrice pos;
     profit := profit pos;
     lastUpdate := lastUpdate pos;
     priceChange := Some None;
     tickDirection := tickDirection pos;
     lastTickTime := lastTickTime pos;
     isRealData := isRealData pos |}.

(** The account table with [priceChange] set to [null] on the positions
    a message addresses. *)
Definition clearPriceChange (data : Message) (accs : list AccountData)
  : list AccountData :=
  map (fun account =>
         if negb (str_eq (accountId account) (data_accountId data)) then account
         else withPositions account
                (map (fun pos => if str_eq (id pos) (data_positionId data)
                                 then withNullPriceChange pos
                                 else pos)
                     (default [] (positions account))))
      accs.

(** ** Reference sums and sample sequences *)

Section ReferenceSum.

Variable StringToNumber : string -> number.

(** The specification's net PnL: the sum of [Number(profit)] over the
    positions. *)
Fixpoint sumOfProfits (ps : list Position) : number :=
  match ps with
  | [] => 0%Q
  | p :: rest => (Number StringToNumber (profit p) + sumOfProfits rest)%Q
  end.

End ReferenceSum.

(** What the sampler sees when it fires: the time, and the values of the
    [netPnL] and [pnlBySymbol] cells at that moment. *)
Record Sample : Type := mkSample {
  sample_now : number;
  sample_netPnL : number;
  sample_pnlBySymbol : gmap string number
}.

(** The aggregator stores new values, then the sampling interval fires. *)
Definition sampleStep (s : HomeState) (x : Sample) : HomeState :=
  recordPnLHistory (sample_now x)
    (setPnl (sample_netPnL x) (sample_pnlBySymbol x) (prevNetPnLRef s) (pnlChange s) s).

(** The net samples a run should have recorded, oldest first. *)
Definition netSamples (xs : list Sample) : list PnLHistoryItem :=
  omap (fun x => if num_neq (sample_netPnL x) 0%Q
                 then Some (mkPnLHistoryItem (sample_now x) (sample_netPnL x))
                 else None) xs.

(** The samples of one symbol a run should have recorded, oldest first. *)
Definition symbolSamples (sym : string) (xs : list Sample) : list PnLHistoryItem :=
  omap (fun x => if num_neq (sample_netPnL x) 0%Q
                 then mkPnLHistoryItem (sample_now x) <$> sample_pnlBySymbol x !! sym
                 else None) xs.

(** ** Scenario data *)

(** The scenario of the specification: a buy position on EURUSD at
    1.1010 receives a [positionUpdated] with current price 1.1020 and
    profit 2.00. *)
Definition eurusd : Position :=
  {| id := "p1"; symbol := "EURUSD"; type := "POSITION_TYPE_BUY";
     volume := 1%Q; openPrice := (11000 # 10000)%Q;
     currentPrice := (11010 # 10000)%Q; profit := ProfitNum 1%Q;
     lastUpdate := Some 1000%Q; priceChange := None; tickDirection := None;
     lastTickTime := None; isRealData := Some true |}.

Definition accountA (ps : list Position) : AccountData :=
  {| accountId := "A"; connected := Some true; connectedToBroker := Some true;
     accountInfo := None; positions := Some ps; orders := None |}.

Definition pricePayload (c : number) (p : option profit_t) : PositionPayload :=
  mkPositionPayload None None None None None (Some c) p None None None None None.

Definition positionMessage (event : string) (payload : option PositionPayload)
  : Message :=
  {| data_event := event; data_accountId := Some "A"; data_positionId := Some "p1";
     data_position := payload; data_accountInformation := None;
     data_accounts := None |}.

Definition stateWith (accs : list AccountData) : HomeState :=
  setSelectedAccount (Some "A") (setAccounts (fun _ => accs) (initialState 0%Q)).

(** Two positions of account A, one of them with a textual profit. *)
Definition gbpusd : Position :=
  {| id := "p2"; symbol := "GBPUSD"; type := "POSITION_TYPE_SELL";
     volume := 2%Q; openPrice := (13000 # 10000)%Q;
     currentPrice := (12990 # 10000)%Q; profit := ProfitStr "2.5";
     lastUpdate := None; priceChange := None; tickDirection := None;
     lastTickTime := None; isRealData := None |}.

Definition readProfit (s : string) : number :=
  if String.eqb s "2.5" then (5 # 2)%Q else 0%Q.

(** The [i]-th firing of the sampler in the long run below: at time
    [i], with net PnL [i] and twice that on EURUSD. *)
Definition sampleAt (i : nat) : Sample :=
  mkSample (ofNat i) (ofNat i) {[ "EURUSD" := (ofNat i + ofNat i)%Q ]}.

(** Sixty-one firings, one more than the histories hold. *)
Definition samples61 : list Sample := map sampleAt (seq 1 61).

(** A message for another account, with account information. *)
Definition messageFor (event : string) (account : string)
    (payload : option PositionPayload) : Message :=
  {| data_event := event; data_accountId := Some account;
     data_positionId := Some "p1"; data_position := payload;
     data_accountInformation := Some (mkAccountInfo (Some "B") None None None None);
     data_accounts := None |}.

(** ** Reference values of the extended properties *)

Section ReferenceGrouping.

Variable StringToNumber : string -> number.

(** The sum of [Number(profit)] over the positions of one symbol. *)
Definition symbolProfitSum (sym : string) (ps : list Position) : number :=
  sumOfProfits StringToNumber
    (List.filter (fun p => String.eqb (symbol p) sym) ps).

End ReferenceGrouping.

(** What one tick leaves alone in a position: everything but the price,
    the profit and the three interpolation fields. *)
Definition sameIdentity (p p' : Position) : Prop :=
  id p' = id p /\ symbol p' = symbol p /\ type p' = type p /\
  volume p' = volume p /\ openPrice p' = openPrice p /\
  lastUpdate p' = lastUpdate p /\ priceChange p' = priceChange p.

(** What one tick leaves alone in an account. *)
Definition sameAccountFrame (selected : option string) (a a' : AccountData) : Prop :=
  accountId a' = accountId a /\
  connected a' = connected a /\
  connectedToBroker a' = connectedToBroker a /\
  accountInfo a' = accountInfo a /\
  orders a' = orders a /\
  (str_eq (accountId a) selected = false -> a' = a) /\
  Forall2 sameIdentity (default [] (positions a)) (default [] (positions a')).

(** Every position carries real data stamped at [now]. *)
Definition allRealAt (now : number) (accs : list AccountData) : Prop :=
  Forall (fun a =>
            Forall (fun p => isRealData p = Some true /\ lastUpdate p = Some now)
                   (default [] (positions a)))
         accs.

(** At most one account-detail fetch is outstanding, and one is
    outstanding only while [isRefreshing] holds. *)
Definition coalesced (ss : Session) : Prop :=
  length (inFlight ss) <= 1 /\
  (inFlight ss <> [] -> isRefreshing (home ss) = true).

(** The inputs that reach [refreshAccountDetails] through the closure of
    the mount render. *)
Definition socketRefresh (x : Input) : bool :=
  match x with
  | WsMessage _ data =>
      String.eqb (data_event data) "positionsUpdated"
      || String.eqb (data_event data) "orderCompleted"
  | _ => false
  end.

(** A [GET /accounts] response whose positions, where flagged as real
    data, carry a [lastUpdate]; a failed response qualifies. *)
Definition stampedResponse (response : ListResponse) : Prop :=
  match response with
  | ListOk data => storeStamped data
  | ListNotOk | ListRejected _ => True
  end.

Definition stampedEvent (e : Event) : Prop :=
  match e with
  | MountFetched response | AccountsFetched response => stampedResponse response
  | _ => True
  end.

(** A position the server flags as real data without a [lastUpdate]. *)
Definition flaggedUnstamped : Position :=
  {| id := "p3"; symbol := "USDJPY"; type := "POSITION_TYPE_BUY";
     volume := 1%Q; openPrice := 150%Q; currentPrice := 151%Q;
     profit := ProfitNum 1%Q; lastUpdate := None; priceChange := None;
     tickDirection := None; lastTickTime := None; isRealData := Some true |}.

(** The events that reach [refreshAccountDetails] through the closure of
    the mount render. *)
Definition socketRefreshEvent (e : Event) : bool :=
  match e with
  | SessionInput x => socketRefresh x
  | _ => false
  end.

(** A form with every required field filled in. *)
Definition filledForm : AccountFormData :=
  mkAccountFormData "12345" "Exness-MT5Trial14" "secret" None.

Definition accountB : AccountData :=
  {| accountId := "B"; connected := Some true; connectedToBroker := Some false;
     accountInfo := None; positions := None; orders := None |}.

(** * Properties *)

(** ** Comparison and list helpers *)

Lemma str_eq_true (a : string) (b : option string) :
  str_eq a b = true <-> b = Some a.
Proof.
  destruct b as [s|]; simpl.
  - rewrite String.eqb_eq. split; [intros -> | intros [= ->]]; reflexivity.
  - split; discriminate.
Qed.

Lemma str_eq_false (a : string) (b : option string) :
  str_eq a b = false <-> b <> Some a.
Proof.
  rewrite <- str_eq_true. destruct (str_eq a b); split; congruence.
Qed.

Lemma map_fmap {A B : Type} (f : A -> B) (l : list A) : map f l = f <$> l.
Proof. induction l as [|x l IH]; simpl; [reflexivity | now rewrite IH]. Qed.

Lemma truthy_true (x : number) : truthy x = true <-> ~ (x == 0)%Q.
Proof.
  unfold truthy. rewrite negb_true_iff, <- not_true_iff_false, Qeq_bool_iff.
  reflexivity.
Qed.

Lemma truthy_false (x : number) : truthy x = false <-> (x == 0)%Q.
Proof. unfold truthy. rewrite negb_false_iff, Qeq_bool_iff. reflexivity. Qed.

Lemma directionOf_up (a b : number) : (b < a)%Q -> directionOf a b = Some up.
Proof.
  intros H. unfold directionOf, num_gt.
  pose proof (proj1 (Qgt_alt a b) H) as Hc. now rewrite Hc.
Qed.

Lemma directionOf_down (a b : number) : (a < b)%Q -> directionOf a b = Some down.
Proof.
  intros H. unfold directionOf, num_gt, num_lt.
  pose proof (proj1 (Qlt_alt a b) H) as Hc. now rewrite Hc.
Qed.

Lemma directionOf_null (a b : number) : (a == b)%Q -> directionOf a b = None.
Proof.
  intros H. unfold directionOf, num_gt, num_lt.
  pose proof (proj1 (Qeq_alt a b) H) as Hc. now rewrite Hc.
Qed.

Lemma directionOf_same (a : number) : directionOf a a = None.
Proof. apply directionOf_null. reflexivity. Qed.

(** ** Authoritative position updates *)

Lemma positionUpdated_lookup (now : number) (data : Message)
    (payload : PositionPayload) (prevAccounts : list AccountData) (i j : nat)
    (account : AccountData) (ps : list Position) (pos : Position) :
  prevAccounts !! i = Some account ->
  str_eq (accountId account) (data_accountId data) = true ->
  positions account = Some ps ->
  ps !! j = Some pos ->
  str_eq (id pos) (data_positionId data) = true ->
  exists account' ps',
    positionUpdated now data payload prevAccounts !! i = Some account' /\
    positions account' = Some ps' /\
    ps' !! j = Some (applyPositionUpdate now payload pos).
Proof.
  intros Hi Ha Hps Hj Hp. unfold positionUpdated.
  rewrite map_fmap, list_lookup_fmap, Hi. simpl. rewrite Ha. simpl.
  eexists; eexists. split; [reflexivity|]. split; [reflexivity|].
  rewrite Hps. simpl. rewrite map_fmap, list_lookup_fmap, Hj. simpl.
  now rewrite Hp.
Qed.

(** C1, as the code has it.  A [positionUpdated] message that carries a
    [position] object and matches position [pos] of an account replaces
    [pos], in place, by a position whose [priceChange] is ["up"] when
    the supplied current price is nonzero and strictly greater than the
    previous one, ["down"] when it is nonzero and strictly less, and
    [null] when it is absent, zero or equal; every supplied property
    other than the four derived ones overwrites the old value (the
    profit is the payload's, not recomputed) and the others are kept;
    [lastUpdate] is the processing time, [tickDirection] is [null] and
    [isRealData] is [true]. *)
Theorem positionUpdated_matched (r : Render) (now : number) (data : Message)
    (payload : PositionPayload) (s : HomeState) (i j : nat)
    (account : AccountData) (ps : list Position) (pos : Position) :
  data_event data = "positionUpdated" ->
  data_position data = Some payload ->
  accounts s !! i = Some account ->
  str_eq (accountId account) (data_accountId data) = true ->
  positions account = Some ps ->
  ps !! j = Some pos ->
  str_eq (id pos) (data_positionId data) = true ->
  exists account' ps' pos',
    accounts (updatePositions r now data s).1 !! i = Some account' /\
    positions account' = Some ps' /\
    ps' !! j = Some pos' /\
    (forall c, p_currentPrice payload = Some c -> ~ (c == 0)%Q ->
               (currentPrice pos < c)%Q -> priceChange pos' = Some (Some up)) /\
    (forall c, p_currentPrice payload = Some c -> ~ (c == 0)%Q ->
               (c < currentPrice pos)%Q -> priceChange pos' = Some (Some down)) /\
    (forall c, p_currentPrice payload = Some c ->
               (c == 0)%Q \/ (c == currentPrice pos)%Q ->
               priceChange pos' = Some None) /\
    (p_currentPrice payload = None -> priceChange pos' = Some None) /\
    id pos' = default (id pos) (p_id payload) /\
    symbol pos' = default (symbol pos) (p_symbol payload) /\
    type pos' = default (type pos) (p_type payload) /\
    volume pos' = default (volume pos) (p_volume payload) /\
    openPrice pos' = default (openPrice pos) (p_openPrice payload) /\
    currentPrice pos' = default (currentPrice pos) (p_currentPrice payload) /\
    profit pos' = default (profit pos) (p_profit payload) /\
    lastTickTime pos' = spread_opt (lastTickTime pos) (p_lastTickTime payload) /\
    lastUpdate pos' = Some now /\
    tickDirection pos' = Some None /\
    isRealData pos' = Some true.
Proof.
  intros Hev Hpl Hi Ha Hps Hj Hp.
  destruct (positionUpdated_lookup now data payload (accounts s) i j account ps pos)
    as (account' & ps' & Hi' & Hps' & Hj'); try assumption.
  exists account', ps', (applyPositionUpdate now payload pos).
  unfold updatePositions. rewrite Hev, Hpl. simpl.
  split; [exact Hi'|]. split; [exact Hps'|]. split; [exact Hj'|].
  unfold num_or.
  repeat split.
  - intros c Hc Hnz Hlt. rewrite Hc.
    apply truthy_true in Hnz. rewrite Hnz.
    now rewrite (directionOf_up _ _ Hlt).
  - intros c Hc Hnz Hlt. rewrite Hc.
    apply truthy_true in Hnz. rewrite Hnz.
    now rewrite (directionOf_down _ _ Hlt).
  - intros c Hc Hcase. rewrite Hc.
    destruct (truthy c) eqn:Ht.
    + destruct Hcase as [H0|Heq].
      * apply truthy_true in Ht. contradiction.
      * now rewrite (directionOf_null _ _ Heq).
    + now rewrite directionOf_same.
  - intros Hc. rewrite Hc. now rewrite directionOf_same.
Qed.

Lemma positionUpdated_matched_witness :
  exists account' ps' pos',
    accounts (updatePositions mountRender 2000%Q
                (positionMessage "positionUpdated"
                   (Some (pricePayload (11020 # 10000)%Q (Some (ProfitNum 2%Q)))))
                (stateWith [accountA [eurusd]])).1 !! 0%nat = Some account' /\
    positions account' = Some ps' /\
    ps' !! 0%nat = Some pos' /\
    priceChange pos' = Some (Some up) /\
    profit pos' = ProfitNum 2%Q /\
    isRealData pos' = Some true.
Proof.
  destruct (positionUpdated_matched mountRender 2000%Q
              (positionMessage "positionUpdated"
                 (Some (pricePayload (11020 # 10000)%Q (Some (ProfitNum 2%Q)))))
              (pricePayload (11020 # 10000)%Q (Some (ProfitNum 2%Q)))
              (stateWith [accountA [eurusd]]) 0%nat 0%nat
              (accountA [eurusd]) [eurusd] eurusd
              eq_refl eq_refl eq_refl eq_refl eq_refl eq_refl eq_refl)
    as (account' & ps' & pos' & H1 & H2 & H3 & Hup & _ & _ & _ & _ & _ & _ & _
        & _ & _ & Hprofit & _ & _ & _ & Hreal).
  exists account', ps', pos'.
  split; [exact H1|]. split; [exact H2|]. split; [exact H3|].
  split; [|split; [exact Hprofit | exact Hreal]].
  apply (Hup (11020 # 10000)%Q); [reflexivity | discriminate | reflexivity].
Defined.

(** C1 as the specification words it fails when the supplied current
    price is zero: 0 is strictly less than the previous price 1.1010,
    yet [priceChange] is [null] and not ["down"], because a zero price
    falls back to the previous one in the comparison. *)
Lemma positionUpdated_zero_price :
  let data := positionMessage "positionUpdated" (Some (pricePayload 0%Q None)) in
  let s' := (updatePositions mountRender 2000%Q data (stateWith [accountA [eurusd]])).1 in
  (0 < currentPrice eurusd)%Q /\
  exists pos',
    accounts s' = [accountA [pos']] /\
    currentPrice pos' = 0%Q /\
    priceChange pos' = Some None /\
    priceChange pos' <> Some (Some down).
Proof.
  split; [reflexivity|].
  eexists. split; [reflexivity|].
  split; [reflexivity|]. split; [reflexivity | discriminate].
Qed.

(** ** The interpolation ticker *)

Section Ticker.

Variable StringToNumber : string -> number.
Variables (now : number) (random : nat -> number).

Lemma hasLastUpdate_None (p : Position) :
  lastUpdate p = None -> hasLastUpdate p = false.
Proof. unfold hasLastUpdate. now intros ->. Qed.

Lemma interpolatePosition_ticked (changePercent : number) (p : Position) :
  hasLastUpdate p = true ->
  tickedPosition p (interpolatePosition StringToNumber now changePercent p).
Proof. intros H. right. split; [exact H|]. split; reflexivity. Qed.

Lemma tickPositions_ticked (ps : list Position) :
  forall k, Forall2 tickedPosition ps (tickPositions StringToNumber now random k ps).1.
Proof.
  induction ps as [|p rest IH]; intros k; simpl.
  - constructor.
  - destruct (hasLastUpdate p) eqn:Hp; simpl.
    + specialize (IH (S (S k))).
      destruct (tickPositions StringToNumber now random (S (S k)) rest) as [rest' k'].
      simpl in *. constructor; [|exact IH].
      now apply interpolatePosition_ticked.
    + specialize (IH k).
      destruct (tickPositions StringToNumber now random k rest) as [rest' k'].
      simpl in *. constructor; [|exact IH].
      left. now split.
Qed.

Lemma tickAccounts_ticked (selected : option string) (accs : list AccountData) :
  forall k,
    Forall2 tickedAccount accs
            (tickAccounts StringToNumber now random k selected accs).1.
Proof.
  induction accs as [|a rest IH]; intros k; simpl.
  - constructor.
  - destruct (str_eq (accountId a) selected); simpl.
    + destruct (positions a) as [[|p ps]|] eqn:Hps.
      * specialize (IH k).
        destruct (tickAccounts StringToNumber now random k selected rest).
        simpl in *. constructor; [now left | exact IH].
      * pose proof (tickPositions_ticked (p :: ps) k) as Hticked.
        destruct (tickPositions StringToNumber now random k (p :: ps))
          as [updatedPositions k1].
        specialize (IH k1).
        destruct (tickAccounts StringToNumber now random k1 selected rest).
        simpl in *. constructor; [|exact IH].
        right. exists (p :: ps), updatedPositions. now repeat split.
      * specialize (IH k).
        destruct (tickAccounts StringToNumber now random k selected rest).
        simpl in *. constructor; [now left | exact IH].
    + specialize (IH k).
      destruct (tickAccounts StringToNumber now random k selected rest).
      simpl in *. constructor; [now left | exact IH].
Qed.

Lemma tickedPosition_stamped (p p' : Position) :
  tickedPosition p p' -> realDataStamped p -> realDataStamped p'.
Proof.
  intros [[_ ->]|(_ & _ & Hreal)] Hinv; [exact Hinv|].
  intros H. rewrite Hreal in H. discriminate.
Qed.

Lemma tickedAccount_stamped (a a' : AccountData) :
  tickedAccount a a' ->
  Forall realDataStamped (default [] (positions a)) ->
  Forall realDataStamped (default [] (positions a')).
Proof.
  intros [->|(ps & ps' & Hps & -> & Hrel)] Hinv; [exact Hinv|].
  rewrite Hps in Hinv. simpl in *. clear Hps.
  induction Hrel as [|p p' ps ps' Hp _ IH]; [constructor|].
  inversion Hinv; subst.
  constructor; [now apply (tickedPosition_stamped p) | now apply IH].
Qed.

(** C2.  One tick relates the account table before and after pointwise:
    every account keeps its place and is either untouched or has its
    positions replaced pointwise, where a position without a (truthy)
    [lastUpdate], in particular one that has none, is exactly the old
    one, and a touched position keeps its [lastUpdate] and has
    [isRealData = false].  So the tick never sets [isRealData] to
    [true], and it preserves the invariant that a position flagged as
    real data carries a [lastUpdate]. *)
Theorem interpolationTick_respects_real_data (s : HomeState) :
  let s' := interpolationTick StringToNumber now random s in
  Forall2 tickedAccount (accounts s) (accounts s') /\
  (forall p p', tickedPosition p p' -> lastUpdate p = None -> p' = p) /\
  (forall p p', tickedPosition p p' ->
                lastUpdate p' = lastUpdate p /\
                (isRealData p' = Some true -> p' = p)) /\
  (storeStamped (accounts s) -> storeStamped (accounts s')).
Proof.
  assert (Hrel : Forall2 tickedAccount (accounts s)
                   (accounts (interpolationTick StringToNumber now random s))).
  { unfold interpolationTick.
    destruct (realTimeEnabled s); simpl.
    - destruct (selectedPositions s); simpl.
      + apply tickAccounts_ticked.
      + apply Forall_Forall2_diag, Forall_forall. intros a _. now left.
    - apply Forall_Forall2_diag, Forall_forall. intros a _. now left. }
  simpl. split; [exact Hrel|]. split; [|split].
  - intros p p' [[_ ->]|(Hhas & _)] Hnone; [reflexivity|].
    rewrite (hasLastUpdate_None p Hnone) in Hhas. discriminate.
  - intros p p' [[_ ->]|(_ & Hlast & Hreal)].
    + now split.
    + split; [exact Hlast|]. intros H. rewrite Hreal in H. discriminate.
  - unfold storeStamped. intros Hinv.
    induction Hrel as [|a a' accs accs' Ha _ IH]; [constructor|].
    inversion Hinv; subst.
    constructor; [now apply (tickedAccount_stamped a) | now apply IH].
Qed.

End Ticker.

(** A tick on account A, whose first position carries real data and
    whose second has never been updated. *)
Lemma interpolationTick_respects_real_data_witness :
  let s := stateWith [accountA [eurusd; gbpusd]] in
  let s' := interpolationTick readProfit 5000%Q (fun _ => (3 # 4)%Q) s in
  Forall2 tickedAccount (accounts s) (accounts s') /\
  storeStamped (accounts s').
Proof.
  destruct (interpolationTick_respects_real_data readProfit 5000%Q
              (fun _ => (3 # 4)%Q) (stateWith [accountA [eurusd; gbpusd]]))
    as (Hrel & _ & _ & Hinv).
  split; [exact Hrel|]. apply Hinv.
  repeat constructor; intros H; try discriminate; now exists 1000%Q.
Defined.

Example interpolationTick_scenario :
  exists p',
    accounts (interpolationTick readProfit 5000%Q (fun _ => (3 # 4)%Q)
                (stateWith [accountA [eurusd; gbpusd]])) =
    [accountA [p'; gbpusd]] /\
    lastUpdate p' = Some 1000%Q /\
    isRealData p' = Some false /\
    tickDirection p' = Some (Some up) /\
    lastTickTime p' = Some 5000%Q.
Proof. eexists. repeat split. Qed.

(** ** Interpolated profit *)

Section InterpolatedProfit.

Variable StringToNumber : string -> number.

Lemma tickPositions_lookup (now : number) (random : nat -> number)
    (ps : list Position) :
  forall k j p,
    ps !! j = Some p ->
    hasLastUpdate p = true ->
    exists i,
      (tickPositions StringToNumber now random k ps).1 !! j =
      Some (interpolatePosition StringToNumber now
              (changePercentOf (random i) (random (S i))) p).
Proof.
  induction ps as [|q rest IH]; intros k j p Hj Hp; [discriminate|].
  simpl. destruct j as [|j]; simpl in Hj.
  - injection Hj as ->. rewrite Hp. simpl.
    destruct (tickPositions StringToNumber now random (S (S k)) rest).
    exists k. reflexivity.
  - destruct (hasLastUpdate q); simpl.
    + destruct (IH (S (S k)) j p Hj Hp) as [i Hi].
      destruct (tickPositions StringToNumber now random (S (S k)) rest).
      exists i. exact Hi.
    + destruct (IH k j p Hj Hp) as [i Hi].
      destruct (tickPositions StringToNumber now random k rest).
      exists i. exact Hi.
Qed.

(** C3, as the code has it.  Let [d] be the price perturbation of a tick
    on a position, [currentPrice * changePercent].  On a buy position
    the new profit is the old one plus [d * volume]; on any other
    position (a sell) it is the old one minus [d * volume];
    [tickDirection] is ["up"] for [d > 0], ["down"] for [d < 0] and
    [null] for [d = 0].  For [d > 0] the profit of a buy strictly
    increases, and that of a sell strictly decreases, when the volume is
    positive. *)
Theorem interpolatePosition_profit (now changePercent : number) (p : Position) :
  let d := (currentPrice p * changePercent)%Q in
  let p' := interpolatePosition StringToNumber now changePercent p in
  let old := Number StringToNumber (profit p) in
  let new := Number StringToNumber (profit p') in
  (type p = "POSITION_TYPE_BUY" -> profit p' = ProfitNum (old + d * volume p)%Q) /\
  (type p <> "POSITION_TYPE_BUY" -> profit p' = ProfitNum (old - d * volume p)%Q) /\
  ((0 < d)%Q -> tickDirection p' = Some (Some up)) /\
  ((d < 0)%Q -> tickDirection p' = Some (Some down)) /\
  ((d == 0)%Q -> tickDirection p' = Some None) /\
  ((0 < d)%Q -> (0 < volume p)%Q -> type p = "POSITION_TYPE_BUY" -> (old < new)%Q) /\
  ((0 < d)%Q -> (0 < volume p)%Q -> type p <> "POSITION_TYPE_BUY" -> (new < old)%Q).
Proof.
  simpl. repeat split.
  - intros Hbuy. apply String.eqb_eq in Hbuy. now rewrite Hbuy.
  - intros Hsell. apply String.eqb_neq in Hsell. now rewrite Hsell.
  - intros Hd. now rewrite (directionOf_up _ _ Hd).
  - intros Hd. now rewrite (directionOf_down _ _ Hd).
  - intros Hd. now rewrite (directionOf_null _ _ Hd).
  - intros Hd Hv Hbuy. apply String.eqb_eq in Hbuy. rewrite Hbuy. simpl.
    pose proof (Qmult_lt_0_compat _ _ Hd Hv) as Hpos. lra.
  - intros Hd Hv Hsell. apply String.eqb_neq in Hsell. rewrite Hsell. simpl.
    pose proof (Qmult_lt_0_compat _ _ Hd Hv) as Hpos. lra.
Qed.

End InterpolatedProfit.

(** A tick with [changePercent = 0.0001] on the EURUSD buy position of
    the scenario. *)
Lemma interpolatePosition_profit_witness :
  let p' := interpolatePosition (fun _ => 0%Q) 5000%Q (1 # 10000)%Q eurusd in
  tickDirection p' = Some (Some up) /\
  (Number (fun _ => 0%Q) (profit eurusd) < Number (fun _ => 0%Q) (profit p'))%Q.
Proof.
  destruct (interpolatePosition_profit (fun _ => 0%Q) 5000%Q (1 # 10000)%Q eurusd)
    as (_ & _ & Hup & _ & _ & Hbuy & _).
  split.
  - apply Hup. reflexivity.
  - apply Hbuy; reflexivity.
Defined.

(** C3 as the specification words it fails on a position of volume zero:
    the perturbation is positive, yet the profit of the buy position does
    not strictly increase. *)
Lemma interpolatePosition_zero_volume :
  let p := mkPosition "p1" "EURUSD" "POSITION_TYPE_BUY" 0%Q (11000 # 10000)%Q
             (11010 # 10000)%Q (ProfitNum 1%Q) (Some 1000%Q) None None None
             (Some true) in
  let p' := interpolatePosition (fun _ => 0%Q) 5000%Q (1 # 10000)%Q p in
  (0 < currentPrice p * (1 # 10000))%Q /\
  ~ (Number (fun _ => 0%Q) (profit p) < Number (fun _ => 0%Q) (profit p'))%Q.
Proof.
  split; [reflexivity|].
  intros H. vm_compute in H. discriminate.
Qed.

(** ** Net PnL *)

Section NetPnL.

Variable StringToNumber : string -> number.

Lemma foldl_profit_sum (ps : list Position) :
  forall acc,
    (foldl (fun sum position => sum + Number StringToNumber (profit position)) acc ps
     == acc + sumOfProfits StringToNumber ps)%Q.
Proof.
  induction ps as [|p rest IH]; intros acc; simpl.
  - lra.
  - rewrite IH. lra.
Qed.

Lemma selectedPositions_setPnl (total : number) (bySymbol : gmap string number)
    (prev : number) (change : option direction) (s : HomeState) :
  selectedPositions (setPnl total bySymbol prev change s) = selectedPositions s.
Proof. reflexivity. Qed.

Lemma netPnLEffect_selectedPositions (s : HomeState) :
  selectedPositions (netPnLEffect StringToNumber s) = selectedPositions s.
Proof.
  unfold netPnLEffect.
  destruct (selectedPositions s) eqn:Hs; now rewrite selectedPositions_setPnl.
Qed.

(** C4.  When the selected account has a position array, the net PnL
    the effect stores is the sum of [Number(profit)] over those
    positions, and running the effect a second time, the account table
    and the selection being what they were, stores the same value. *)
Theorem netPnLEffect_sum (s : HomeState) (ps : list Position) :
  selectedPositions s = Some ps ->
  (netPnL (netPnLEffect StringToNumber s) == sumOfProfits StringToNumber ps)%Q /\
  netPnL (netPnLEffect StringToNumber (netPnLEffect StringToNumber s)) =
  netPnL (netPnLEffect StringToNumber s).
Proof.
  intros Hs. split.
  - unfold netPnLEffect. rewrite Hs. simpl. unfold totalPnLOf.
    rewrite foldl_profit_sum. lra.
  - unfold netPnLEffect at 1. rewrite netPnLEffect_selectedPositions, Hs.
    unfold netPnLEffect. rewrite Hs. reflexivity.
Qed.

End NetPnL.

Lemma netPnLEffect_sum_witness :
  (netPnL (netPnLEffect readProfit (stateWith [accountA [eurusd; gbpusd]]))
   == 7 # 2)%Q /\
  netPnL (netPnLEffect readProfit
            (netPnLEffect readProfit (stateWith [accountA [eurusd; gbpusd]]))) =
  netPnL (netPnLEffect readProfit (stateWith [accountA [eurusd; gbpusd]])).
Proof.
  destruct (netPnLEffect_sum readProfit (stateWith [accountA [eurusd; gbpusd]])
              [eurusd; gbpusd] eq_refl) as [Hsum Hidem].
  split; [|exact Hidem].
  rewrite Hsum. reflexivity.
Defined.

(** ** PnL history *)

Lemma slice_last_length {A : Type} (n : nat) (l : list A) :
  length (slice_last n l) <= n.
Proof. unfold slice_last. rewrite length_drop. lia. Qed.

Lemma slice_last_all {A : Type} (n : nat) (l : list A) :
  length l <= n -> slice_last n l = l.
Proof.
  intros H. unfold slice_last. replace (length l - n) with 0 by lia. reflexivity.
Qed.

Lemma slice_last_snoc {A : Type} (n : nat) (l : list A) (x : A) :
  0 < n -> slice_last n (slice_last n l ++ [x]) = slice_last n (l ++ [x]).
Proof.
  intros Hn. destruct (decide (length l <= n)) as [Hle|Hgt].
  - now rewrite (slice_last_all n l Hle).
  - unfold slice_last. rewrite !length_app, length_drop. simpl.
    replace (length l - (length l - n) + 1 - n) with 1 by lia.
    replace (length l + 1 - n) with (S (length l - n)) by lia.
    rewrite !drop_app_le by (rewrite ?length_drop; lia).
    rewrite drop_drop. do 2 f_equal. lia.
Qed.

(** What the per-symbol loop leaves under a key. *)
Lemma recordSymbol_foldl_lookup (now : number) (sym : string)
    (entries : list (string * number)) :
  NoDup entries.*1 ->
  forall prev : gmap string (list PnLHistoryItem),
    let result := foldl (fun acc entry => recordSymbol now entry acc) prev entries in
    (forall v, (sym, v) ∈ entries ->
       result !! sym =
       Some (slice_last 60 (default [] (prev !! sym) ++ [mkPnLHistoryItem now v]))) /\
    (sym ∉ entries.*1 -> result !! sym = prev !! sym).
Proof.
  induction entries as [|[k v0] rest IH]; intros Hnd prev; simpl.
  - split; [intros v Hin; inversion Hin | reflexivity].
  - simpl in Hnd. apply NoDup_cons in Hnd as [Hk Hnd].
    destruct (IH Hnd (recordSymbol now (k, v0) prev)) as [IHin IHout].
    split.
    + intros v Hin. apply elem_of_cons in Hin as [Heq|Hin].
      * injection Heq as <- <-. rewrite (IHout Hk).
        unfold recordSymbol. simpl. now rewrite lookup_insert_eq.
      * rewrite (IHin v Hin). unfold recordSymbol. simpl.
        assert (k <> sym) as Hne.
        { intros ->. apply Hk. apply list_elem_of_fmap. now exists (sym, v). }
        now rewrite lookup_insert_ne.
    + intros Hnotin. apply not_elem_of_cons in Hnotin as [Hne Hnotin].
      rewrite (IHout Hnotin). unfold recordSymbol. simpl.
      now rewrite lookup_insert_ne.
Qed.

Lemma recordPnLHistory_zero (now : number) (s : HomeState) :
  (netPnL s == 0)%Q -> recordPnLHistory now s = s.
Proof.
  intros H. unfold recordPnLHistory, num_neq.
  apply Qeq_bool_iff in H. now rewrite H.
Qed.

Lemma recordPnLHistory_net (now : number) (s : HomeState) :
  ~ (netPnL s == 0)%Q ->
  pnlHistory (recordPnLHistory now s) =
  slice_last 60 (pnlHistory s ++ [mkPnLHistoryItem now (netPnL s)]).
Proof.
  intros H. unfold recordPnLHistory, num_neq.
  destruct (Qeq_bool (netPnL s) 0) eqn:E; [|reflexivity].
  apply Qeq_bool_iff in E. contradiction.
Qed.

Lemma recordPnLHistory_symbol (now : number) (s : HomeState) (sym : string) :
  ~ (netPnL s == 0)%Q ->
  pnlHistoryBySymbol (recordPnLHistory now s) !! sym =
  match pnlBySymbol s !! sym with
  | Some v =>
      Some (slice_last 60 (default [] (pnlHistoryBySymbol s !! sym)
                           ++ [mkPnLHistoryItem now v]))
  | None => pnlHistoryBySymbol s !! sym
  end.
Proof.
  intros H. unfold recordPnLHistory, num_neq.
  destruct (Qeq_bool (netPnL s) 0) eqn:E.
  { apply Qeq_bool_iff in E. contradiction. }
  simpl.
  destruct (recordSymbol_foldl_lookup now sym (map_to_list (pnlBySymbol s))
              (NoDup_fst_map_to_list _) (pnlHistoryBySymbol s)) as [Hin Hout].
  destruct (pnlBySymbol s !! sym) as [v|] eqn:Hv.
  - apply Hin. now apply elem_of_map_to_list.
  - apply Hout. intros Hin'. apply list_elem_of_fmap in Hin' as ([k v] & -> & Hkv).
    apply elem_of_map_to_list in Hkv. simpl in Hv. congruence.
Qed.

Lemma sampleRun_histories (t0 : number) (xs : list Sample) :
  let s := foldl sampleStep (initialState t0) xs in
  pnlHistory s = slice_last 60 (netSamples xs) /\
  forall sym,
    default [] (pnlHistoryBySymbol s !! sym) = slice_last 60 (symbolSamples sym xs).
Proof.
  induction xs as [|x xs IH] using rev_ind; simpl.
  - split; [reflexivity|]. intros sym. now rewrite lookup_empty.
  - rewrite foldl_app. simpl in *.
    set (s := foldl sampleStep (initialState t0) xs) in *.
    destruct IH as [IHnet IHsym].
    unfold netSamples, symbolSamples in *.
    split.
    + rewrite omap_app. simpl.
      unfold sampleStep.
      destruct (num_neq (sample_netPnL x) 0%Q) eqn:E; simpl.
      * rewrite recordPnLHistory_net.
        -- simpl. rewrite IHnet. now rewrite slice_last_snoc by lia.
        -- simpl. unfold num_neq in E. apply negb_true_iff in E.
           intros H. apply Qeq_bool_iff in H. congruence.
      * rewrite recordPnLHistory_zero.
        -- simpl. now rewrite app_nil_r.
        -- simpl. unfold num_neq in E. apply negb_false_iff in E.
           now apply Qeq_bool_iff.
    + intros sym. rewrite omap_app. simpl.
      unfold sampleStep.
      destruct (num_neq (sample_netPnL x) 0%Q) eqn:E; simpl.
      * rewrite recordPnLHistory_symbol.
        -- simpl. destruct (sample_pnlBySymbol x !! sym) as [v|]; simpl.
           ++ rewrite IHsym. now rewrite slice_last_snoc by lia.
           ++ rewrite app_nil_r. apply IHsym.
        -- simpl. unfold num_neq in E. apply negb_true_iff in E.
           intros H. apply Qeq_bool_iff in H. congruence.
      * rewrite recordPnLHistory_zero.
        -- simpl. rewrite app_nil_r. apply IHsym.
        -- simpl. unfold num_neq in E. apply negb_false_iff in E.
           now apply Qeq_bool_iff.
Qed.

Lemma slice_last_drop {A : Type} (n : nat) (l : list A) :
  slice_last n l = drop (length l - n) l /\
  length (slice_last n l) = Nat.min n (length l).
Proof. unfold slice_last. split; [reflexivity|]. rewrite length_drop. lia. Qed.

Lemma recordPnLHistory_evicts (now : number) (s0 : HomeState)
    (oldest : PnLHistoryItem) (rest : list PnLHistoryItem) :
  ~ (netPnL s0 == 0)%Q ->
  pnlHistory s0 = oldest :: rest ->
  length (oldest :: rest) = 60 ->
  pnlHistory (recordPnLHistory now s0) = (rest ++ [mkPnLHistoryItem now (netPnL s0)])%list.
Proof.
  intros Hnz Hhist Hlen. rewrite (recordPnLHistory_net now s0 Hnz), Hhist.
  unfold slice_last. rewrite length_app, Hlen. reflexivity.
Qed.

Lemma recordPnLHistory_appends (now : number) (s0 : HomeState) :
  ~ (netPnL s0 == 0)%Q ->
  length (pnlHistory s0) < 60 ->
  pnlHistory (recordPnLHistory now s0) =
  (pnlHistory s0 ++ [mkPnLHistoryItem now (netPnL s0)])%list.
Proof.
  intros Hnz Hlen. rewrite (recordPnLHistory_net now s0 Hnz).
  unfold slice_last. rewrite length_app. simpl.
  replace (length (pnlHistory s0) + 1 - 60) with 0 by lia. reflexivity.
Qed.

(** C5.  After any run of the sampler from the initial state, the net
    history is the samples taken at a nonzero net PnL with all but the
    60 most recent dropped from the front, in the order they were
    taken, and the history of every symbol is the same for the samples
    taken for it; so no list is longer than 60.  One firing at a nonzero
    net PnL on a full history drops exactly its oldest entry and puts
    the new sample last; below the cap it only appends.  A firing at net
    PnL zero changes nothing at all. *)
Theorem pnlHistory_bounded_fifo (t0 : number) (xs : list Sample) :
  let s := foldl sampleStep (initialState t0) xs in
  pnlHistory s = drop (length (netSamples xs) - 60) (netSamples xs) /\
  length (pnlHistory s) = Nat.min 60 (length (netSamples xs)) /\
  (forall sym,
     default [] (pnlHistoryBySymbol s !! sym) =
     drop (length (symbolSamples sym xs) - 60) (symbolSamples sym xs)) /\
  (forall sym h, pnlHistoryBySymbol s !! sym = Some h -> length h <= 60) /\
  (forall now s0 oldest rest,
     ~ (netPnL s0 == 0)%Q -> pnlHistory s0 = oldest :: rest ->
     length (oldest :: rest) = 60 ->
     pnlHistory (recordPnLHistory now s0) =
     (rest ++ [mkPnLHistoryItem now (netPnL s0)])%list) /\
  (forall now s0,
     ~ (netPnL s0 == 0)%Q -> length (pnlHistory s0) < 60 ->
     pnlHistory (recordPnLHistory now s0) =
     (pnlHistory s0 ++ [mkPnLHistoryItem now (netPnL s0)])%list) /\
  (forall now s0, (netPnL s0 == 0)%Q -> recordPnLHistory now s0 = s0).
Proof.
  pose proof (sampleRun_histories t0 xs) as H. cbv zeta in *.
  destruct H as [Hnet Hsym].
  split; [|split; [|split; [|split; [|split; [|split]]]]].
  - rewrite Hnet. apply slice_last_drop.
  - rewrite Hnet. apply slice_last_drop.
  - intros sym. rewrite Hsym. apply slice_last_drop.
  - intros sym h Hh. specialize (Hsym sym). rewrite Hh in Hsym. simpl in Hsym.
    rewrite Hsym. apply slice_last_length.
  - apply recordPnLHistory_evicts.
  - apply recordPnLHistory_appends.
  - intros now s0. apply recordPnLHistory_zero.
Qed.

(** Sixty-one firings at a nonzero net PnL, then one at zero: the first
    sample has been evicted, the second is now the oldest, the
    sixty-first the newest, and the firing at zero has left no trace. *)
Lemma pnlHistory_bounded_fifo_witness :
  let s := foldl sampleStep (initialState 0%Q) (samples61 ++ [sampleAt 0])%list in
  length (pnlHistory s) = 60 /\
  head (pnlHistory s) = Some (mkPnLHistoryItem (ofNat 2) (ofNat 2)) /\
  last (pnlHistory s) = Some (mkPnLHistoryItem (ofNat 61) (ofNat 61)) /\
  head (default [] (pnlHistoryBySymbol s !! "EURUSD")) =
    Some (mkPnLHistoryItem (ofNat 2) (ofNat 4)) /\
  recordPnLHistory 5000%Q (initialState 0%Q) = initialState 0%Q.
Proof.
  destruct (pnlHistory_bounded_fifo 0%Q (samples61 ++ [sampleAt 0])%list)
    as (Hnet & _ & Hsym & _ & _ & _ & Hzero).
  cbv zeta. rewrite Hnet, (Hsym "EURUSD").
  split; [vm_compute; reflexivity|]. split; [vm_compute; reflexivity|].
  split; [vm_compute; reflexivity|]. split; [vm_compute; reflexivity|].
  apply Hzero. reflexivity.
Defined.

(** ** Repeated upserts *)

Lemma spread_opt_twice {A : Type} (old new : option A) :
  spread_opt (spread_opt old new) new = spread_opt old new.
Proof. now destruct new. Qed.

Lemma default_twice {A : Type} (old : A) (new : option A) :
  default (default old new) new = default old new.
Proof. now destruct new. Qed.

Lemma applyPositionUpdate_twice (now1 now2 : number) (payload : PositionPayload)
    (pos : Position) :
  applyPositionUpdate now2 payload (applyPositionUpdate now1 payload pos) =
  withNullPriceChange (applyPositionUpdate now2 payload pos).
Proof.
  unfold applyPositionUpdate, withNullPriceChange, spreadPosition. simpl.
  rewrite !default_twice, !spread_opt_twice.
  f_equal. f_equal.
  unfold num_or. destruct (p_currentPrice payload) as [c|]; simpl.
  - destruct (truthy c); apply directionOf_same.
  - apply directionOf_same.
Qed.

Lemma updateAccountInfo_twice (data : Message) (accs : list AccountData) :
  updateAccountInfo data (updateAccountInfo data accs) = updateAccountInfo data accs.
Proof.
  unfold updateAccountInfo. rewrite map_map. apply map_ext. intros a.
  destruct (str_eq (accountId a) (data_accountId data)) eqn:Ha; simpl.
  - rewrite Ha. now rewrite spread_opt_twice.
  - now rewrite Ha.
Qed.

Lemma positionUpdated_twice (now : number) (data : Message)
    (payload : PositionPayload) (accs : list AccountData) :
  positionUpdated now data payload (positionUpdated now data payload accs) =
  clearPriceChange data (positionUpdated now data payload accs).
Proof.
  unfold positionUpdated, clearPriceChange. rewrite !map_map. apply map_ext.
  intros a.
  destruct (str_eq (accountId a) (data_accountId data)) eqn:Ha; simpl.
  - rewrite Ha. simpl. unfold withPositions. simpl. f_equal. f_equal.
    rewrite !map_map. apply map_ext. intros p.
    destruct (str_eq (id p) (data_positionId data)) eqn:Hp.
    + destruct (str_eq (id (applyPositionUpdate now payload p)) (data_positionId data));
        [apply applyPositionUpdate_twice | reflexivity].
    + now rewrite Hp.
  - now rewrite Ha.
Qed.

(** C6, as the code has it.  Applying the same account-metadata upsert
    twice gives the state of applying it once.  Applying the same
    position upsert twice, at the same processing time, gives the state
    of applying it once except that [priceChange] of the addressed
    position is [null] after the second application (the stored price
    then equals the supplied one); [tickDirection], [isRealData] and
    every other property are those of the first application.  On one
    position, with two processing times, the second application yields
    what a single application at the second time yields, [priceChange]
    being [null]. *)
Theorem upsert_twice :
  (forall data accs,
     updateAccountInfo data (updateAccountInfo data accs) =
     updateAccountInfo data accs) /\
  (forall now data payload accs,
     positionUpdated now data payload (positionUpdated now data payload accs) =
     clearPriceChange data (positionUpdated now data payload accs)) /\
  (forall now1 now2 payload pos,
     applyPositionUpdate now2 payload (applyPositionUpdate now1 payload pos) =
     withNullPriceChange (applyPositionUpdate now2 payload pos)).
Proof.
  split; [|split].
  - apply updateAccountInfo_twice.
  - apply positionUpdated_twice.
  - apply applyPositionUpdate_twice.
Qed.

(** C6 as the specification words it fails on the scenario's price
    move: the first application records [priceChange = "up"], the second
    one [null]. *)
Lemma positionUpdated_twice_differs :
  let data := positionMessage "positionUpdated"
                (Some (pricePayload (11020 # 10000)%Q (Some (ProfitNum 2%Q)))) in
  let once := (updatePositions mountRender 2000%Q data
                 (stateWith [accountA [eurusd]])).1 in
  let twice := (updatePositions mountRender 2000%Q data once).1 in
  (exists p1, accounts once = [accountA [p1]] /\ priceChange p1 = Some (Some up)) /\
  (exists p2, accounts twice = [accountA [p2]] /\ priceChange p2 = Some None) /\
  accounts twice <> accounts once.
Proof.
  split; [|split].
  - eexists. split; reflexivity.
  - eexists. split; reflexivity.
  - intros H. vm_compute in H. discriminate.
Qed.

(** ** Updates for an unknown account *)

Lemma map_unmatched {A : Type} (f : A -> A) (l : list A) :
  Forall (fun x => f x = x) l -> map f l = l.
Proof.
  induction 1 as [|x l Hx _ IH]; simpl; [reflexivity | now rewrite Hx, IH].
Qed.

Section UnknownAccount.

Variables (data : Message) (accs : list AccountData).
Hypothesis unknown :
  Forall (fun a => str_eq (accountId a) (data_accountId data) = false) accs.

Lemma updateAccountInfo_unknown : updateAccountInfo data accs = accs.
Proof.
  apply map_unmatched. eapply Forall_impl; [exact unknown|].
  simpl. intros a Ha. now rewrite Ha.
Qed.

Lemma positionUpdated_unknown (now : number) (payload : PositionPayload) :
  positionUpdated now data payload accs = accs.
Proof.
  apply map_unmatched. eapply Forall_impl; [exact unknown|].
  simpl. intros a Ha. now rewrite Ha.
Qed.

Lemma positionRemoved_unknown : positionRemoved data accs = accs.
Proof.
  apply map_unmatched. eapply Forall_impl; [exact unknown|].
  simpl. intros a Ha. now rewrite Ha.
Qed.

End UnknownAccount.

(** C7.  When no account of the table has the id a message names, the
    socket handler completes on an [accountInformationUpdated],
    [positionUpdated] or [positionRemoved] message without issuing a
    request and leaves the account table, and every other cell but the
    two staleness timestamps, as it was. *)
Theorem unknown_account_noop (r : Render) (now : number) (data : Message)
    (s : HomeState) :
  Forall (fun a => str_eq (accountId a) (data_accountId data) = false) (accounts s) ->
  data_event data = "accountInformationUpdated" \/
  data_event data = "positionUpdated" \/
  data_event data = "positionRemoved" ->
  exists s' t,
    onmessage r now data s = Some (s', []) /\
    accounts s' = accounts s /\
    s' = setLastRealDataUpdate now (setLastPriceUpdate t s) /\
    (t = now \/ t = lastPriceUpdate s).
Proof.
  intros Hunknown Hev. unfold onmessage, updatePositions.
  destruct Hev as [Hev|[Hev|Hev]]; rewrite Hev; simpl.
  - exists (setLastRealDataUpdate now s), (lastPriceUpdate s).
    unfold setAccounts. rewrite (updateAccountInfo_unknown _ _ Hunknown).
    destruct s; simpl. repeat split; try reflexivity. now right.
  - destruct (data_position data) as [payload|]; simpl.
    + exists (setLastRealDataUpdate now (setLastPriceUpdate now s)), now.
      unfold setAccounts. rewrite (positionUpdated_unknown _ _ Hunknown).
      destruct s; simpl. repeat split; try reflexivity. now left.
    + exists (setLastRealDataUpdate now s), (lastPriceUpdate s).
      destruct s; simpl. repeat split; try reflexivity. now right.
  - exists (setLastRealDataUpdate now s), (lastPriceUpdate s).
    destruct (data_position data); simpl;
      unfold setAccounts; rewrite (positionRemoved_unknown _ _ Hunknown);
      destruct s; simpl; repeat split; try reflexivity; now right.
Qed.

Lemma unknown_account_noop_witness :
  exists s' t,
    onmessage mountRender 2000%Q
      (messageFor "positionUpdated" "B" (Some (pricePayload 2%Q None)))
      (stateWith [accountA [eurusd]]) = Some (s', []) /\
    accounts s' = [accountA [eurusd]] /\
    s' = setLastRealDataUpdate 2000%Q
           (setLastPriceUpdate t (stateWith [accountA [eurusd]])) /\
    (t = 2000%Q \/ t = 0%Q).
Proof.
  apply (unknown_account_noop mountRender 2000%Q
           (messageFor "positionUpdated" "B" (Some (pricePayload 2%Q None)))
           (stateWith [accountA [eurusd]])).
  - repeat constructor.
  - right. left. reflexivity.
Defined.

(** ** Position removal *)

(** C8.  A [positionRemoved] message for position [X] of account [A]
    issues no request and relates the account table before and after
    pointwise: an account with another id is the old one; an account
    with id [A] keeps everything but its positions, which are the old
    positions with an id other than [X], in their order, and none with
    id [X]. *)
Theorem positionRemoved_removes (r : Render) (now : number) (data : Message)
    (s : HomeState) (A X : string) :
  data_event data = "positionRemoved" ->
  data_accountId data = Some A ->
  data_positionId data = Some X ->
  (updatePositions r now data s).2 = [] /\
  Forall2 (removedFrom A X) (accounts s) (accounts (updatePositions r now data s).1).
Proof.
  intros Hev HA HX. unfold updatePositions. rewrite Hev. simpl.
  assert (Hrel : Forall2 (removedFrom A X) (accounts s)
                   (positionRemoved data (accounts s))).
  { unfold positionRemoved. rewrite map_fmap. apply Forall2_fmap_r.
    apply Forall_Forall2_diag, Forall_forall. intros a _.
    rewrite HA, HX. simpl.
    destruct (String.eqb (accountId a) A) eqn:Ha; simpl.
    - apply String.eqb_eq in Ha. split; [intros Hne; contradiction|].
      intros _. eexists. split; [reflexivity|]. split; [|reflexivity].
      apply Forall_forall. intros p Hp.
      apply list_elem_of_In, filter_In in Hp as [_ Hp].
      apply negb_true_iff, String.eqb_neq in Hp. exact Hp.
    - apply String.eqb_neq in Ha. split; [reflexivity|].
      intros Heq. contradiction. }
  destruct (data_position data); simpl; split; try reflexivity; exact Hrel.
Qed.

Lemma positionRemoved_removes_witness :
  (updatePositions mountRender 2000%Q (positionMessage "positionRemoved" None)
     (stateWith [accountA [eurusd; gbpusd]])).2 = [] /\
  Forall2 (removedFrom "A" "p1")
    [accountA [eurusd; gbpusd]]
    (accounts (updatePositions mountRender 2000%Q
                 (positionMessage "positionRemoved" None)
                 (stateWith [accountA [eurusd; gbpusd]])).1).
Proof.
  apply (positionRemoved_removes mountRender 2000%Q
           (positionMessage "positionRemoved" None)
           (stateWith [accountA [eurusd; gbpusd]]) "A" "p1");
    reflexivity.
Defined.

(** ** The sparkline *)

Lemma Math_max_init (rest : list number) :
  forall x, (x <= Math_max x rest)%Q.
Proof.
  unfold Math_max. induction rest as [|y rest IH]; intros x; simpl.
  - apply Qle_refl.
  - eapply Qle_trans; [apply Q.le_max_l | apply IH].
Qed.

Lemma Math_min_init (rest : list number) :
  forall x, (Math_min x rest <= x)%Q.
Proof.
  unfold Math_min. induction rest as [|y rest IH]; intros x; simpl.
  - apply Qle_refl.
  - eapply Qle_trans; [apply IH | apply Q.le_min_l].
Qed.

Lemma Math_max_ge (rest : list number) :
  forall x v, In v (x :: rest) -> (v <= Math_max x rest)%Q.
Proof.
  induction rest as [|y rest IH]; intros x v Hin.
  - destruct Hin as [->|[]]. apply Qle_refl.
  - change (Math_max x (y :: rest)) with (Math_max (Qmax x y) rest).
    destruct Hin as [->|[->|Hin]].
    + eapply Qle_trans; [apply Q.le_max_l | apply Math_max_init].
    + eapply Qle_trans; [apply Q.le_max_r | apply Math_max_init].
    + apply IH. now right.
Qed.

Lemma Math_min_le (rest : list number) :
  forall x v, In v (x :: rest) -> (Math_min x rest <= v)%Q.
Proof.
  induction rest as [|y rest IH]; intros x v Hin.
  - destruct Hin as [->|[]]. apply Qle_refl.
  - change (Math_min x (y :: rest)) with (Math_min (Qmin x y) rest).
    destruct Hin as [->|[->|Hin]].
    + eapply Qle_trans; [apply Math_min_init | apply Q.le_min_l].
    + eapply Qle_trans; [apply Math_min_init | apply Q.le_min_r].
    + apply IH. now right.
Qed.

Lemma rangeOf_nonzero (max min : number) : ~ (rangeOf max min == 0)%Q.
Proof.
  unfold rangeOf. destruct (truthy (max - min)%Q) eqn:E.
  - now apply truthy_true.
  - discriminate.
Qed.

Lemma ofNat_le (i j : nat) : i <= j -> (ofNat i <= ofNat j)%Q.
Proof. intros H. unfold ofNat. rewrite <- Zle_Qle. lia. Qed.

Lemma ofNat_pos (n : nat) : 0 < n -> (0 < ofNat n)%Q.
Proof.
  intros H. unfold ofNat. change 0%Q with (inject_Z 0). rewrite <- Zlt_Qlt. lia.
Qed.

Lemma unit_scaled (t : number) :
  (0 <= t)%Q -> (t <= 1)%Q ->
  (0 <= t * 100 <= 100)%Q /\ (0 <= 100 - t * 100 <= 100)%Q.
Proof. intros H0 H1. split; split; lra. Qed.

Lemma ratio_unit (a b : number) :
  (0 <= a)%Q -> (a <= b)%Q -> (0 < b)%Q -> (0 <= a / b)%Q /\ (a / b <= 1)%Q.
Proof.
  intros Ha Hab Hb. split.
  - apply Qle_shift_div_l; [exact Hb | lra].
  - apply Qle_shift_div_r; [exact Hb | lra].
Qed.

(** The normalised height of a value between the extremes. *)
Lemma height_unit (max min v : number) :
  (min <= v)%Q -> (v <= max)%Q ->
  (0 <= (v - min) / rangeOf max min)%Q /\ ((v - min) / rangeOf max min <= 1)%Q.
Proof.
  intros Hmin Hmax. unfold rangeOf.
  destruct (truthy (max - min)%Q) eqn:E.
  - apply truthy_true in E. apply ratio_unit; lra.
  - apply truthy_false in E. apply ratio_unit; lra.
Qed.

(** C10.  [SparkLine] is defined on every sequence.  On fewer than two
    values it draws nothing.  On two or more it yields one point per
    value, with both coordinates between 0 and 100, and neither divisor
    is zero: the index divisor is the positive [length - 1], and the
    range falls back to 1 when the largest and the smallest value
    coincide. *)
Theorem SparkLine_total (data : list number) :
  (length data < 2 -> SparkLine data = None) /\
  (2 <= length data ->
   exists points,
     SparkLine data = Some points /\
     length points = length data /\
     Forall (fun pt => (0 <= pt.1 <= 100)%Q /\ (0 <= pt.2 <= 100)%Q) points) /\
  (2 <= length data -> ~ (ofNat (length data - 1) == 0)%Q) /\
  (forall max min, ~ (rangeOf max min == 0)%Q).
Proof.
  split; [|split; [|split]].
  - intros Hlen.
    destruct data as [|v0 [|v1 rest]]; simpl in *; [reflexivity | reflexivity | lia].
  - intros Hlen. destruct data as [|v0 [|v1 rest]]; simpl in Hlen; try lia.
    eexists. split; [reflexivity|]. split; [apply length_imap|].
    apply Forall_lookup. intros i pt Hpt.
    rewrite list_lookup_imap in Hpt.
    apply fmap_Some in Hpt as (v & Hv & ->). cbn [fst snd].
    pose proof (lookup_lt_Some _ _ _ Hv) as Hi.
    assert (Hin : In v (v0 :: v1 :: rest)).
    { apply list_elem_of_In, list_elem_of_lookup. now exists i. }
    split.
    + apply unit_scaled; apply ratio_unit.
      * apply (ofNat_le 0). lia.
      * apply ofNat_le. unfold number in *. simpl in *. lia.
      * apply ofNat_pos. simpl. lia.
      * apply (ofNat_le 0). lia.
      * apply ofNat_le. unfold number in *. simpl in *. lia.
      * apply ofNat_pos. simpl. lia.
    + apply unit_scaled; apply height_unit;
        first [now apply Math_min_le | now apply Math_max_ge].
  - intros Hlen H.
    pose proof (ofNat_pos (length data - 1) ltac:(lia)) as Hpos.
    rewrite H in Hpos. now apply Qlt_irrefl in Hpos.
  - apply rangeOf_nonzero.
Qed.

Lemma SparkLine_total_witness :
  SparkLine [1%Q] = None /\
  exists points,
    SparkLine [1%Q; 3%Q; 2%Q] = Some points /\
    length points = 3 /\
    Forall (fun pt => (0 <= pt.1 <= 100)%Q /\ (0 <= pt.2 <= 100)%Q) points.
Proof.
  split.
  - apply (SparkLine_total [1%Q]). simpl. lia.
  - apply (SparkLine_total [1%Q; 3%Q; 2%Q]). simpl. lia.
Defined.

Example SparkLine_rising :
  SparkLine [1%Q; 3%Q; 2%Q] =
  Some [((0 / 2 * 100)%Q, (100 - (1 - 1) / (3 - 1) * 100)%Q);
        ((1 / 2 * 100)%Q, (100 - (3 - 1) / (3 - 1) * 100)%Q);
        ((2 / 2 * 100)%Q, (100 - (2 - 1) / (3 - 1) * 100)%Q)].
Proof. reflexivity. Qed.

Example SparkLine_flat :
  SparkLine [5%Q; 5%Q] =
  Some [((0 / 1 * 100)%Q, (100 - (5 - 5) / 1 * 100)%Q);
        ((1 / 1 * 100)%Q, (100 - (5 - 5) / 1 * 100)%Q)].
Proof. reflexivity. Qed.

(** ** Coalescing of account-detail refreshes *)

(** The guard of [refreshAccountDetails]: a call through a closure that
    has captured [isRefreshing = true] issues no request and writes no
    cell. *)
Lemma refreshAccountDetails_guard (r : Render) (a : option string) (s : HomeState) :
  captured_isRefreshing r = true -> refreshAccountDetails r a s = (s, []).
Proof. intros H. unfold refreshAccountDetails. now rewrite H. Qed.

(** A click while a refresh is in flight goes through the closure of the
    current render and is dropped: it only selects the account. *)
Lemma viewAccountDetails_dropped (a : string) (ss : Session) :
  isRefreshing (home ss) = true ->
  step (ViewAccountDetails a) ss =
  Some (mkSession (setSelectedAccount (Some a) (home ss)) (inFlight ss ++ [])).
Proof.
  intros H. unfold step, viewAccountDetails, refreshAccountDetails, render. simpl.
  now rewrite H.
Qed.

(** A [positionsUpdated] or [orderCompleted] message goes through the
    closure of the mount render, which has captured [isRefreshing =
    false]: it issues a fetch whatever the cell holds now. *)
Lemma socket_refresh_always_fetches (now : number) (data : Message) (ss : Session) :
  data_event data = "positionsUpdated" \/ data_event data = "orderCompleted" ->
  step (WsMessage now data) ss =
  Some (mkSession (setLastRealDataUpdate now (setIsRefreshing true (home ss)))
                  (inFlight ss ++ [data_accountId data])).
Proof.
  intros [Hev|Hev]; unfold step, onmessage, updatePositions; rewrite Hev; simpl.
  - now destruct (data_position data).
  - reflexivity.
Qed.

(** C9 on the code.  Two [positionsUpdated] messages for account A
    arrive one after the other.  After the first, a refresh is in flight
    and [isRefreshing] is [true]; the second is not dropped: two fetches
    of the account detail are outstanding. *)
Theorem socket_refresh_not_coalesced :
  let m := positionMessage "positionsUpdated" None in
  let ss0 := mkSession (stateWith [accountA [eurusd]]) [] in
  exists ss1 ss2,
    step (WsMessage 1000%Q m) ss0 = Some ss1 /\
    isRefreshing (home ss1) = true /\
    inFlight ss1 = [Some "A"] /\
    step (WsMessage 1001%Q m) ss1 = Some ss2 /\
    inFlight ss2 = [Some "A"; Some "A"] /\
    run [WsMessage 1000%Q m; WsMessage 1001%Q m] ss0 = Some ss2.
Proof.
  simpl. eexists. eexists.
  split; [reflexivity|]. split; [reflexivity|]. split; [reflexivity|].
  split; [reflexivity|]. split; reflexivity.
Qed.

(** * Further properties of the code *)

(** ** The per-symbol grouping of the aggregator *)

Lemma num_or_some_eq (x : number) : (num_or (Some x) 0 == x)%Q.
Proof.
  unfold num_or. destruct (truthy x) eqn:E; [reflexivity|].
  apply truthy_false in E. now rewrite E.
Qed.

Section Grouping.

Variable StringToNumber : string -> number.

Lemma symbolProfitSum_none (sym : string) (ps : list Position) :
  existsb (fun p => String.eqb (symbol p) sym) ps = false ->
  symbolProfitSum StringToNumber sym ps = 0%Q.
Proof.
  unfold symbolProfitSum. induction ps as [|p ps IH]; simpl; [reflexivity|].
  intros H. apply orb_false_iff in H as [Hp Hps]. rewrite Hp. now apply IH.
Qed.

Lemma symbolProfitSum_cons (sym : string) (p : Position) (ps : list Position) :
  symbolProfitSum StringToNumber sym (p :: ps) =
  if String.eqb (symbol p) sym
  then (Number StringToNumber (profit p) + symbolProfitSum StringToNumber sym ps)%Q
  else symbolProfitSum StringToNumber sym ps.
Proof.
  unfold symbolProfitSum. simpl. now destruct (String.eqb (symbol p) sym).
Qed.

Lemma grouping_foldl_lookup (sym : string) (ps : list Position) :
  forall m : gmap string number,
    let result :=
      foldl (fun symbolPnL position =>
               <[symbol position :=
                   (num_or (symbolPnL !! symbol position) 0 +
                    Number StringToNumber (profit position))%Q]> symbolPnL)
            m ps in
    if existsb (fun p => String.eqb (symbol p) sym) ps
    then exists v,
        result !! sym = Some v /\
        (v == num_or (m !! sym) 0 + symbolProfitSum StringToNumber sym ps)%Q
    else result !! sym = m !! sym.
Proof.
  induction ps as [|p ps IH]; intros m; [reflexivity|].
  cbn [foldl existsb]. rewrite symbolProfitSum_cons.
  specialize (IH (<[symbol p := (num_or (m !! symbol p) 0 +
                                 Number StringToNumber (profit p))%Q]> m)).
  cbv zeta in IH.
  destruct (String.eqb (symbol p) sym) eqn:Hp; cbn [orb].
  - apply String.eqb_eq in Hp. subst sym. rewrite lookup_insert_eq in IH.
    destruct (existsb (fun p0 => String.eqb (symbol p0) (symbol p)) ps) eqn:Hex.
    + destruct IH as (v & Hv & Heq). exists v. split; [exact Hv|].
      rewrite Heq, num_or_some_eq. lra.
    + eexists. split; [exact IH|].
      rewrite (symbolProfitSum_none _ _ Hex). lra.
  - apply String.eqb_neq in Hp. rewrite lookup_insert_ne in IH by exact Hp.
    exact IH.
Qed.

(** X1.  The per-symbol table of the aggregator has an entry exactly for
    the symbols that occur among the positions, and the entry of a
    symbol is the sum of [Number(profit)] over the positions of that
    symbol. *)
Theorem symbolPnLOf_grouped_sum (ps : list Position) (sym : string) :
  ((exists p, In p ps /\ symbol p = sym) ->
   exists v, symbolPnLOf StringToNumber ps !! sym = Some v /\
             (v == symbolProfitSum StringToNumber sym ps)%Q) /\
  ((forall p, In p ps -> symbol p <> sym) ->
   symbolPnLOf StringToNumber ps !! sym = None).
Proof.
  pose proof (grouping_foldl_lookup sym ps ∅) as H. cbv zeta in H.
  unfold symbolPnLOf. split.
  - intros (p & Hin & Hp).
    assert (Hex : existsb (fun p => String.eqb (symbol p) sym) ps = true).
    { apply existsb_exists. exists p. split; [exact Hin|]. now apply String.eqb_eq. }
    rewrite Hex in H. destruct H as (v & Hv & Heq).
    exists v. split; [exact Hv|]. rewrite Heq, lookup_empty. simpl. lra.
  - intros Hno.
    assert (Hex : existsb (fun p => String.eqb (symbol p) sym) ps = false).
    { apply not_true_iff_false. intros Hex. apply existsb_exists in Hex
        as (p & Hin & Hp). apply String.eqb_eq in Hp. now apply (Hno p). }
    rewrite Hex in H. rewrite H. apply lookup_empty.
Qed.

End Grouping.

Lemma symbolPnLOf_grouped_sum_witness :
  exists v,
    symbolPnLOf readProfit [eurusd; gbpusd; eurusd] !! "EURUSD" = Some v /\
    (v == 2)%Q.
Proof.
  destruct (symbolPnLOf_grouped_sum readProfit [eurusd; gbpusd; eurusd] "EURUSD")
    as [Hsome _].
  destruct Hsome as (v & Hv & Heq).
  - exists eurusd. split; [now left | reflexivity].
  - exists v. split; [exact Hv|]. rewrite Heq. reflexivity.
Defined.

(** ** Settling of an account-detail refresh *)

Lemma markReal_allReal (now : number) (ps : list Position) :
  Forall (fun p => isRealData p = Some true /\ lastUpdate p = Some now)
         (map (markReal now) ps).
Proof. induction ps; simpl; constructor; [now split | assumption]. Qed.

(** X3.  However a refresh settles, the in-flight flag is cleared, so the
    next refresh requested through a handler of the resulting render is
    sent; and a refresh that fails, by a non-2xx status or a rejected
    fetch, changes no other cell. *)
Theorem refresh_settled_releases (now : number) (a a' : option string)
    (response : Response) (s : HomeState) :
  let s' := refreshAccountDetails_settled now a response s in
  isRefreshing s' = false /\
  refreshAccountDetails (render s') a' s' =
    (setIsRefreshing true s', [FetchAccountDetail a']) /\
  (response = ResponseNotOk \/ response = FetchRejected ->
   s' = setIsRefreshing false s).
Proof.
  simpl. split; [|split].
  - now destruct response.
  - unfold refreshAccountDetails, render. simpl. now destruct response.
  - intros [-> | ->]; reflexivity.
Qed.

Lemma refresh_settled_releases_witness :
  refreshAccountDetails_settled 3000%Q (Some "A") FetchRejected
    (setIsRefreshing true (stateWith [accountA [eurusd]])) =
  setIsRefreshing false (setIsRefreshing true (stateWith [accountA [eurusd]])).
Proof.
  apply (refresh_settled_releases 3000%Q (Some "A") None FetchRejected
           (setIsRefreshing true (stateWith [accountA [eurusd]]))).
  now right.
Defined.

(** X4.  A successful refresh of account [a] leaves every other account
    as it was and merges the response into the accounts with that id:
    when the response carries positions they replace the account's
    positions wholesale, each marked as real data stamped with the
    processing time, whatever the ticker had estimated; when it carries
    none, the positions stay.  Orders are replaced likewise, and the
    global real-data timestamp is set. *)
Theorem refresh_settled_snapshot (now : number) (a : option string)
    (data : AccountPayload) (s : HomeState) (i : nat) (account : AccountData) :
  accounts s !! i = Some account ->
  let s' := refreshAccountDetails_settled now a (ResponseOk data) s in
  lastRealDataUpdate s' = Some now /\
  length (accounts s') = length (accounts s) /\
  (str_eq (accountId account) a = false -> accounts s' !! i = Some account) /\
  (str_eq (accountId account) a = true ->
   exists account',
     accounts s' !! i = Some account' /\
     (forall ps, a_positions data = Some ps ->
        positions account' = Some (map (markReal now) ps) /\
        Forall (fun p => isRealData p = Some true /\ lastUpdate p = Some now)
               (map (markReal now) ps)) /\
     (a_positions data = None -> positions account' = positions account) /\
     orders account' = spread_opt (orders account) (a_orders data)).
Proof.
  intros Hi. simpl. split; [reflexivity|]. split; [apply length_map|].
  rewrite map_fmap, list_lookup_fmap, Hi. simpl. split.
  - intros Hne. now rewrite Hne.
  - intros Heq. rewrite Heq. eexists. split; [reflexivity|].
    unfold spreadAccount. simpl. split; [|split; [|reflexivity]].
    + intros ps Hps. rewrite Hps. simpl. split; [reflexivity|].
      apply markReal_allReal.
    + intros Hps. now rewrite Hps.
Qed.

Lemma refresh_settled_snapshot_witness :
  let ticked := interpolatePosition readProfit 2500%Q (1 # 10000)%Q eurusd in
  let data := mkAccountPayload None None None None (Some [eurusd; gbpusd]) None in
  let s' := refreshAccountDetails_settled 3000%Q (Some "A") (ResponseOk data)
              (stateWith [accountA [ticked]]) in
  exists account',
    accounts s' !! 0%nat = Some account' /\
    positions account' = Some [markReal 3000%Q eurusd; markReal 3000%Q gbpusd].
Proof.
  destruct (refresh_settled_snapshot 3000%Q (Some "A")
              (mkAccountPayload None None None None (Some [eurusd; gbpusd]) None)
              (stateWith [accountA [interpolatePosition readProfit 2500%Q
                                      (1 # 10000)%Q eurusd]])
              0%nat
              (accountA [interpolatePosition readProfit 2500%Q (1 # 10000)%Q eurusd])
              eq_refl) as (_ & _ & _ & Hmatch).
  destruct (Hmatch eq_refl) as (account' & H1 & Hps & _).
  exists account'. split; [exact H1|].
  now destruct (Hps [eurusd; gbpusd] eq_refl).
Defined.

(** ** The initial snapshot *)

Lemma markAccountReal_allReal (now : number) (accs : list AccountData) :
  allRealAt now (map (markAccountReal now) accs).
Proof.
  unfold allRealAt. induction accs as [|a accs IH]; simpl; constructor;
    [|exact IH].
  unfold markAccountReal. destruct (positions a) as [ps|] eqn:Hps; simpl.
  - apply markReal_allReal.
  - rewrite Hps. constructor.
Qed.

(** X5.  An [initialAccounts] message that carries an account list
    replaces the whole table, whatever it held: the new table has the
    accounts of the message in their order, and every position in it is
    flagged as real data stamped with the processing time.  No request
    is sent.  Without an account list the handler stores [undefined] in
    the table. *)
Theorem initialAccounts_replaces (r : Render) (now : number) (data : Message)
    (s : HomeState) :
  data_event data = "initialAccounts" ->
  (forall accs, data_accounts data = Some accs ->
     exists s',
       onmessage r now data s = Some (s', []) /\
       accounts s' = map (markAccountReal now) accs /\
       map accountId (accounts s') = map accountId accs /\
       allRealAt now (accounts s') /\
       lastRealDataUpdate s' = Some now) /\
  (data_accounts data = None -> onmessage r now data s = None).
Proof.
  intros Hev. unfold onmessage. rewrite Hev. simpl. split.
  - intros accs Haccs. rewrite Haccs. eexists. split; [reflexivity|]. simpl.
    split; [reflexivity|]. split; [|split; [apply markAccountReal_allReal|reflexivity]].
    rewrite map_map. apply map_ext. intros a. unfold markAccountReal.
    now destruct (positions a).
  - intros Hnone. now rewrite Hnone.
Qed.

Lemma initialAccounts_replaces_witness :
  exists s',
    onmessage mountRender 4000%Q
      (mkMessage "initialAccounts" None None None None
                 (Some [accountB; accountA [gbpusd]]))
      (stateWith [accountA [eurusd]]) = Some (s', []) /\
    accounts s' = [accountB; accountA [markReal 4000%Q gbpusd]].
Proof.
  destruct (initialAccounts_replaces mountRender 4000%Q
              (mkMessage "initialAccounts" None None None None
                         (Some [accountB; accountA [gbpusd]]))
              (stateWith [accountA [eurusd]]) eq_refl) as [Hsome _].
  destruct (Hsome [accountB; accountA [gbpusd]] eq_refl) as (s' & H1 & H2 & _).
  exists s'. split; [exact H1 | exact H2].
Defined.

(** ** The real-data invariant across the whole dashboard *)

Lemma allRealAt_stamped (now : number) (accs : list AccountData) :
  allRealAt now accs -> storeStamped accs.
Proof.
  unfold allRealAt, storeStamped. intros H.
  eapply Forall_impl; [exact H|]. simpl. intros a Ha.
  eapply Forall_impl; [exact Ha|]. simpl.
  intros p [_ Hlast] _. rewrite Hlast. now eexists.
Qed.

Lemma updateAccountInfo_stamped (data : Message) (accs : list AccountData) :
  storeStamped accs -> storeStamped (updateAccountInfo data accs).
Proof.
  unfold storeStamped, updateAccountInfo. intros H.
  induction H as [|a accs Ha _ IH]; simpl; constructor; [|exact IH].
  now destruct (str_eq (accountId a) (data_accountId data)).
Qed.

Lemma positionUpdated_stamped (now : number) (data : Message)
    (payload : PositionPayload) (accs : list AccountData) :
  storeStamped accs -> storeStamped (positionUpdated now data payload accs).
Proof.
  unfold storeStamped, positionUpdated. intros H.
  induction H as [|a accs Ha _ IH]; simpl; constructor; [|exact IH].
  destruct (str_eq (accountId a) (data_accountId data)); simpl; [|exact Ha].
  induction Ha as [|p ps Hp _ IHps]; simpl; constructor; [|exact IHps].
  destruct (str_eq (id p) (data_positionId data)); [|exact Hp].
  intros _. simpl. now eexists.
Qed.

Lemma positionRemoved_stamped (data : Message) (accs : list AccountData) :
  storeStamped accs -> storeStamped (positionRemoved data accs).
Proof.
  unfold storeStamped, positionRemoved. intros H.
  induction H as [|a accs Ha _ IH]; simpl; constructor; [|exact IH].
  destruct (str_eq (accountId a) (data_accountId data)); simpl; [|exact Ha].
  induction Ha as [|p ps Hp _ IHps]; simpl; [constructor|].
  destruct (negb (str_eq (id p) (data_positionId data)));
    [constructor; assumption | assumption].
Qed.

Lemma refresh_settled_stamped (now : number) (a : option string)
    (response : Response) (s : HomeState) :
  storeStamped (accounts s) ->
  storeStamped (accounts (refreshAccountDetails_settled now a response s)).
Proof.
  intros H. destruct response as [data| |]; simpl; try exact H.
  unfold storeStamped in *.
  induction H as [|acc accs Ha _ IH]; simpl; constructor; [|exact IH].
  destruct (str_eq (accountId acc) a); [|exact Ha].
  unfold spreadAccount. simpl.
  destruct (a_positions data) as [ps|]; simpl; [|exact Ha].
  eapply Forall_impl; [apply (markReal_allReal now)|].
  intros p [_ Hlast] _. rewrite Hlast. now eexists.
Qed.

Lemma refreshAccountDetails_accounts (r : Render) (a : option string)
    (s : HomeState) :
  accounts (refreshAccountDetails r a s).1 = accounts s.
Proof. unfold refreshAccountDetails. now destruct (captured_isRefreshing r). Qed.

Lemma updatePositions_stamped (r : Render) (now : number) (data : Message)
    (s : HomeState) :
  storeStamped (accounts s) ->
  storeStamped (accounts (updatePositions r now data s).1).
Proof.
  intros H. unfold updatePositions.
  destruct (String.eqb (data_event data) "positionUpdated");
    destruct (data_position data) as [payload|]; simpl;
    try (now apply positionUpdated_stamped);
    destruct (String.eqb (data_event data) "positionRemoved"); simpl;
    try (now apply positionRemoved_stamped);
    destruct (String.eqb (data_event data) "positionsUpdated"); simpl;
    try exact H; now rewrite refreshAccountDetails_accounts.
Qed.

Lemma onmessage_stamped (r : Render) (now : number) (data : Message)
    (s s' : HomeState) (cmds : list Cmd) :
  onmessage r now data s = Some (s', cmds) ->
  storeStamped (accounts s) -> storeStamped (accounts s').
Proof.
  unfold onmessage. intros Hon H.
  destruct (String.eqb (data_event data) "initialAccounts").
  { destruct (data_accounts data) as [accs|]; [|discriminate].
    injection Hon as <- _. simpl.
    apply (allRealAt_stamped now), markAccountReal_allReal. }
  destruct (String.eqb (data_event data) "accountSynchronized"
            || String.eqb (data_event data) "accountInformationUpdated").
  { injection Hon as <- _. simpl. now apply updateAccountInfo_stamped. }
  destruct (String.eqb (data_event data) "positionsUpdated"
            || String.eqb (data_event data) "positionUpdated"
            || String.eqb (data_event data) "positionRemoved").
  { pose proof (updatePositions_stamped r now data s H) as Hup.
    destruct (updatePositions r now data s) as [s1 c1].
    injection Hon as <- _. exact Hup. }
  destruct (String.eqb (data_event data) "orderCompleted").
  { pose proof (refreshAccountDetails_accounts r (data_accountId data) s) as Hacc.
    destruct (refreshAccountDetails r (data_accountId data) s) as [s1 c1].
    injection Hon as <- _. simpl in *. now rewrite Hacc. }
  destruct (String.eqb (data_event data) "accountConnected"
            || String.eqb (data_event data) "accountDisconnected");
    injection Hon as <- _; exact H.
Qed.

Lemma step_stamped (x : Input) (ss ss' : Session) :
  step x ss = Some ss' ->
  storeStamped (accounts (home ss)) -> storeStamped (accounts (home ss')).
Proof.
  destruct x as [now data|now i response|a]; simpl; intros Hstep H.
  - destruct (onmessage mountRender now data (home ss)) as [[s' cmds]|] eqn:Hon;
      [|discriminate].
    injection Hstep as <-. simpl. now apply (onmessage_stamped _ _ _ _ _ _ Hon).
  - destruct (inFlight ss !! i); [|discriminate].
    injection Hstep as <-. simpl. now apply refresh_settled_stamped.
  - unfold viewAccountDetails in Hstep.
    pose proof (refreshAccountDetails_accounts (render (home ss)) (Some a)
                  (setSelectedAccount (Some a) (home ss))) as Hacc.
    destruct (refreshAccountDetails (render (home ss)) (Some a)
                (setSelectedAccount (Some a) (home ss))) as [s' cmds].
    injection Hstep as <-. simpl in *. now rewrite Hacc.
Qed.

Section DashboardInvariant.

Variable StringToNumber : string -> number.

Lemma interpolationTick_stamped (now : number) (random : nat -> number)
    (s : HomeState) :
  storeStamped (accounts s) ->
  storeStamped (accounts (interpolationTick StringToNumber now random s)).
Proof.
  intros H. unfold interpolationTick.
  destruct (realTimeEnabled s); simpl; [|exact H].
  destruct (selectedPositions s); simpl; [|exact H].
  pose proof (tickAccounts_ticked StringToNumber now random (selectedAccount s)
                (accounts s) 0) as Hrel.
  unfold storeStamped in *.
  induction Hrel as [|a a' accs accs' Ha _ IH]; [constructor|].
  inversion H; subst.
  constructor; [now apply (tickedAccount_stamped a) | now apply IH].
Qed.

Lemma react_stamped (e : Event) (ss ss' : Session) :
  stampedEvent e ->
  react StringToNumber e ss = Some ss' ->
  storeStamped (accounts (home ss)) -> storeStamped (accounts (home ss')).
Proof.
  destruct e as [x|now random| |now|response|response]; simpl; intros He Hr H.
  - now apply (step_stamped x ss).
  - injection Hr as <-. simpl. now apply interpolationTick_stamped.
  - injection Hr as <-. simpl. unfold netPnLEffect.
    now destruct (selectedPositions (home ss)).
  - injection Hr as <-. simpl. unfold recordPnLHistory.
    now destruct (num_neq (netPnL (home ss)) 0%Q).
  - injection Hr as <-. simpl.
    destruct response as [[|first rest]| |e]; simpl in *; assumption.
  - injection Hr as <-. simpl.
    destruct response as [data| |e]; simpl in *; assumption.
Qed.

(** X6.  In every state the dashboard reaches from its first render, by
    any interleaving of socket messages, refresh completions, clicks,
    interpolation ticks, aggregator runs, samplings and settled
    [GET /accounts] requests, a position flagged as real data carries a
    [lastUpdate], provided the account lists the server returns keep
    that rule themselves: a list is stored as it comes, without being
    stamped. *)
Theorem reachable_store_stamped (t0 : number) (es : list Event) (ss : Session) :
  Forall stampedEvent es ->
  reactAll StringToNumber es (mkSession (initialState t0) []) = Some ss ->
  storeStamped (accounts (home ss)).
Proof.
  assert (Hgen : forall es ss0 ss',
             Forall stampedEvent es ->
             reactAll StringToNumber es ss0 = Some ss' ->
             storeStamped (accounts (home ss0)) ->
             storeStamped (accounts (home ss'))).
  { clear. induction es as [|e es IH]; simpl; intros ss0 ss' Hes Hrun H.
    - now injection Hrun as <-.
    - inversion Hes as [|e' es' He Hes']; subst.
      destruct (react StringToNumber e ss0) as [ss1|] eqn:Hr; [|discriminate].
      apply (IH ss1 ss' Hes' Hrun). now apply (react_stamped e ss0). }
  intros Hes Hrun. apply (Hgen es _ ss Hes Hrun). constructor.
Qed.

End DashboardInvariant.

Lemma reachable_store_stamped_witness :
  exists ss,
    reactAll readProfit
      [MountFetched (ListOk [accountA [gbpusd]; accountB]);
       SessionInput (WsMessage 1000%Q
                       (mkMessage "initialAccounts" None None None None
                                  (Some [accountA [gbpusd]])));
       InterpolationTick 1500%Q (fun _ => (3 # 4)%Q);
       AccountsFetched (ListOk [accountA [eurusd]]);
       NetPnLEffect;
       RecordPnL 5000%Q]
      (mkSession (initialState 0%Q) []) = Some ss /\
    storeStamped (accounts (home ss)).
Proof.
  eexists. split; [reflexivity|].
  apply (reachable_store_stamped readProfit 0%Q
           [MountFetched (ListOk [accountA [gbpusd]; accountB]);
            SessionInput (WsMessage 1000%Q
                            (mkMessage "initialAccounts" None None None None
                                       (Some [accountA [gbpusd]])));
            InterpolationTick 1500%Q (fun _ => (3 # 4)%Q);
            AccountsFetched (ListOk [accountA [eurusd]]);
            NetPnLEffect;
            RecordPnL 5000%Q]).
  - repeat constructor; intros H; try discriminate; now exists 1000%Q.
  - reflexivity.
Defined.

(** The proviso is needed: a list that flags a position as real data
    without a [lastUpdate] is stored unchanged. *)
Example unstamped_list_is_stored :
  exists ss,
    reactAll readProfit [AccountsFetched (ListOk [accountA [flaggedUnstamped]])]
      (mkSession (initialState 0%Q) []) = Some ss /\
    accounts (home ss) = [accountA [flaggedUnstamped]] /\
    ~ storeStamped (accounts (home ss)).
Proof.
  eexists. split; [reflexivity|]. split; [reflexivity|].
  simpl. intros H. inversion H as [|a l Ha _]; subst.
  inversion Ha as [|p l' Hp _]; subst.
  destruct (Hp eq_refl) as [t Ht]. discriminate.
Qed.

(** ** What a tick leaves alone, and how far it moves a price *)

Lemma sameIdentity_refl (p : Position) : sameIdentity p p.
Proof. now repeat split. Qed.

Lemma sameAccountFrame_refl (selected : option string) (a : AccountData) :
  sameAccountFrame selected a a.
Proof.
  repeat split. apply Forall_Forall2_diag, Forall_forall.
  intros p _. apply sameIdentity_refl.
Qed.

Section TickFrame.

Variable StringToNumber : string -> number.
Variables (now : number) (random : nat -> number).

Lemma tickPositions_frame (ps : list Position) :
  forall k,
    Forall2 sameIdentity ps (tickPositions StringToNumber now random k ps).1.
Proof.
  induction ps as [|p rest IH]; intros k; simpl; [constructor|].
  destruct (hasLastUpdate p); simpl.
  - specialize (IH (S (S k))).
    destruct (tickPositions StringToNumber now random (S (S k)) rest).
    simpl in *. constructor; [now repeat split | exact IH].
  - specialize (IH k).
    destruct (tickPositions StringToNumber now random k rest).
    simpl in *. constructor; [apply sameIdentity_refl | exact IH].
Qed.

Lemma tickAccounts_frame (selected : option string) (accs : list AccountData) :
  forall k,
    Forall2 (sameAccountFrame selected) accs
            (tickAccounts StringToNumber now random k selected accs).1.
Proof.
  induction accs as [|a rest IH]; intros k; simpl; [constructor|].
  destruct (str_eq (accountId a) selected) eqn:Hsel; simpl.
  - destruct (positions a) as [[|p ps]|] eqn:Hps.
    + specialize (IH k).
      destruct (tickAccounts StringToNumber now random k selected rest).
      simpl in *. constructor; [apply sameAccountFrame_refl | exact IH].
    + pose proof (tickPositions_frame (p :: ps) k) as Hframe.
      destruct (tickPositions StringToNumber now random k (p :: ps))
        as [updatedPositions k1].
      specialize (IH k1).
      destruct (tickAccounts StringToNumber now random k1 selected rest).
      simpl in *. constructor; [|exact IH].
      unfold sameAccountFrame. simpl. rewrite Hps. simpl.
      do 5 (split; [reflexivity|]).
      split; [intros Hne; congruence | exact Hframe].
    + specialize (IH k).
      destruct (tickAccounts StringToNumber now random k selected rest).
      simpl in *. constructor; [apply sameAccountFrame_refl | exact IH].
  - specialize (IH k).
    destruct (tickAccounts StringToNumber now random k selected rest).
    simpl in *. constructor; [apply sameAccountFrame_refl | exact IH].
Qed.

(** X7.  A tick adds and removes no account and no position.  Each
    account keeps its id, connection flags, metadata and orders; an
    account other than the selected one is untouched; each position
    keeps its id, symbol, type, volume, open price, [lastUpdate] and
    [priceChange].  Outside the account table only [lastPriceUpdate] may
    change. *)
Theorem interpolationTick_frame (s : HomeState) :
  let s' := interpolationTick StringToNumber now random s in
  Forall2 (sameAccountFrame (selectedAccount s)) (accounts s) (accounts s') /\
  s' = setLastPriceUpdate (lastPriceUpdate s') (setAccounts (fun _ => accounts s') s).
Proof.
  simpl. unfold interpolationTick.
  destruct (realTimeEnabled s); simpl.
  - destruct (selectedPositions s); simpl.
    + split; [apply tickAccounts_frame | reflexivity].
    + split; [|now destruct s].
      apply Forall_Forall2_diag, Forall_forall. intros a _.
      apply sameAccountFrame_refl.
  - split; [|now destruct s].
    apply Forall_Forall2_diag, Forall_forall. intros a _.
    apply sameAccountFrame_refl.
Qed.

End TickFrame.

Lemma changePercentOf_bounds (r1 r2 : number) :
  (0 <= r1)%Q -> (r1 < 1)%Q ->
  ((1 # 10000) <= changePercentOf r1 r2 /\ changePercentOf r1 r2 < (5 # 10000))%Q \/
  (- (5 # 10000) < changePercentOf r1 r2 /\ changePercentOf r1 r2 <= - (1 # 10000))%Q.
Proof.
  intros H0 H1. unfold changePercentOf.
  destruct (num_gt r2 (1 # 2)); [left | right]; split; lra.
Qed.

(** X8.  With both draws of [Math.random()] in [0, 1), a tick moves a
    positive price by at least 0.01% and by less than 0.05% of itself:
    the new price is positive, differs from the old one, stays strictly
    within 0.05% of it, and [tickDirection] is set to ["up"] or
    ["down"], never to [null]. *)
Theorem interpolatePosition_moves (StringToNumber : string -> number)
    (now r1 r2 : number) (p : Position) :
  (0 <= r1)%Q -> (r1 < 1)%Q -> (0 < currentPrice p)%Q ->
  let p' := interpolatePosition StringToNumber now (changePercentOf r1 r2) p in
  (0 < currentPrice p')%Q /\
  (currentPrice p * (1 - (5 # 10000)) < currentPrice p')%Q /\
  (currentPrice p' < currentPrice p * (1 + (5 # 10000)))%Q /\
  ((currentPrice p * (1 + (1 # 10000)) <= currentPrice p')%Q /\
   tickDirection p' = Some (Some up) \/
   (currentPrice p' <= currentPrice p * (1 - (1 # 10000)))%Q /\
   tickDirection p' = Some (Some down)).
Proof.
  intros H0 H1 Hprice. simpl.
  set (c := changePercentOf r1 r2).
  set (x := currentPrice p) in *.
  destruct (changePercentOf_bounds r1 r2 H0 H1) as [[Hlo Hhi]|[Hlo Hhi]];
    fold c in Hlo, Hhi.
  - assert (Hd : (0 < x * c)%Q) by (apply Qmult_lt_0_compat; lra).
    assert (Hup : (x * (1 # 10000) <= x * c)%Q)
      by (apply Qmult_le_l; [exact Hprice | exact Hlo]).
    assert (Hdn : (x * c < x * (5 # 10000))%Q)
      by (apply Qmult_lt_l; [exact Hprice | exact Hhi]).
    repeat split; try lra.
    left. split; [lra|]. now rewrite (directionOf_up _ _ Hd).
  - assert (Hup : (x * c <= x * - (1 # 10000))%Q)
      by (apply Qmult_le_l; [exact Hprice | exact Hhi]).
    assert (Hdn : (x * - (5 # 10000) < x * c)%Q)
      by (apply Qmult_lt_l; [exact Hprice | exact Hlo]).
    assert (Hd : (x * c < 0)%Q) by lra.
    repeat split; try lra.
    right. split; [lra|]. now rewrite (directionOf_down _ _ Hd).
Qed.

Lemma interpolatePosition_moves_witness :
  let p' := interpolatePosition readProfit 5000%Q
              (changePercentOf (1 # 4)%Q (3 # 4)%Q) eurusd in
  (0 < currentPrice p')%Q /\
  (currentPrice eurusd * (1 - (5 # 10000)) < currentPrice p')%Q /\
  (currentPrice p' < currentPrice eurusd * (1 + (5 # 10000)))%Q.
Proof.
  destruct (interpolatePosition_moves readProfit 5000%Q (1 # 4)%Q (3 # 4)%Q eurusd)
    as (H1 & H2 & H3 & _); try reflexivity.
  - discriminate.
  - now repeat split.
Defined.

(** ** Coalescing through the handlers of the current render *)

Lemma updatePositions_no_refresh (r : Render) (now : number) (data : Message)
    (s : HomeState) :
  String.eqb (data_event data) "positionsUpdated" = false ->
  (updatePositions r now data s).2 = [] /\
  isRefreshing (updatePositions r now data s).1 = isRefreshing s.
Proof.
  intros Hev. unfold updatePositions. rewrite Hev.
  destruct (String.eqb (data_event data) "positionUpdated");
    destruct (data_position data);
    destruct (String.eqb (data_event data) "positionRemoved"); now split.
Qed.

Lemma onmessage_no_refresh (r : Render) (now : number) (data : Message)
    (s s' : HomeState) (cmds : list Cmd) :
  onmessage r now data s = Some (s', cmds) ->
  String.eqb (data_event data) "positionsUpdated"
  || String.eqb (data_event data) "orderCompleted" = false ->
  detailFetches cmds = [] /\ isRefreshing s' = isRefreshing s.
Proof.
  unfold onmessage. intros Hon Hev.
  apply orb_false_iff in Hev as [Hpu Hoc]. rewrite Hpu, Hoc in Hon.
  destruct (String.eqb (data_event data) "initialAccounts").
  { destruct (data_accounts data); [|discriminate].
    injection Hon as <- <-. now split. }
  destruct (String.eqb (data_event data) "accountSynchronized"
            || String.eqb (data_event data) "accountInformationUpdated").
  { injection Hon as <- <-. now split. }
  simpl in Hon.
  destruct (String.eqb (data_event data) "positionUpdated"
            || String.eqb (data_event data) "positionRemoved").
  { destruct (updatePositions_no_refresh r now data s Hpu) as [Hc Hr].
    destruct (updatePositions r now data s) as [s1 c1]. simpl in *.
    injection Hon as <- <-. subst c1. now split. }
  destruct (String.eqb (data_event data) "accountConnected"
            || String.eqb (data_event data) "accountDisconnected");
    injection Hon as <- <-; now split.
Qed.

Lemma step_coalesced (x : Input) (ss ss' : Session) :
  socketRefresh x = false ->
  step x ss = Some ss' -> coalesced ss -> coalesced ss'.
Proof.
  unfold coalesced.
  destruct x as [now data|now i response|a]; simpl; intros Hx Hstep [Hlen Hflag].
  - destruct (onmessage mountRender now data (home ss)) as [[s' cmds]|] eqn:Hon;
      [|discriminate].
    destruct (onmessage_no_refresh _ _ _ _ _ _ Hon Hx) as [Hc Hr].
    injection Hstep as <-. simpl. rewrite Hc, app_nil_r, Hr. now split.
  - destruct (inFlight ss !! i) as [a|] eqn:Hi; [|discriminate].
    injection Hstep as <-. simpl.
    destruct (inFlight ss) as [|b [|c rest]]; simpl in *; try lia;
      [discriminate|].
    destruct i; simpl in *; [|discriminate].
    split; [lia | congruence].
  - unfold viewAccountDetails, refreshAccountDetails, render in Hstep.
    simpl in Hstep.
    destruct (isRefreshing (home ss)) eqn:Hr; injection Hstep as <-; simpl.
    + rewrite app_nil_r. split; [exact Hlen | intros _; exact Hr].
    + destruct (inFlight ss) as [|b rest]; simpl.
      * split; [lia | reflexivity].
      * exfalso. assert (false = true) by (apply Hflag; discriminate).
        discriminate.
Qed.

Section Coalescing.

Variable StringToNumber : string -> number.

Lemma react_coalesced (e : Event) (ss ss' : Session) :
  socketRefreshEvent e = false ->
  react StringToNumber e ss = Some ss' -> coalesced ss -> coalesced ss'.
Proof.
  destruct e as [x|now random| |now|response|response]; simpl; intros He Hr H.
  - now apply (step_coalesced x ss).
  - injection Hr as <-. unfold coalesced in *. simpl.
    unfold interpolationTick.
    destruct (realTimeEnabled (home ss)); simpl; [|exact H].
    now destruct (selectedPositions (home ss)).
  - injection Hr as <-. unfold coalesced in *. simpl. unfold netPnLEffect.
    now destruct (selectedPositions (home ss)).
  - injection Hr as <-. unfold coalesced in *. simpl. unfold recordPnLHistory.
    now destruct (num_neq (netPnL (home ss)) 0%Q).
  - injection Hr as <-. unfold coalesced in *. simpl.
    now destruct response as [[|first rest]| |e].
  - injection Hr as <-. unfold coalesced in *. simpl.
    now destruct response.
Qed.

(** X9.  As long as no [positionsUpdated] or [orderCompleted] message
    arrives on the socket, refreshes are coalesced: from the first
    render on, through any interleaving of clicks on an account, refresh
    completions, other socket messages, ticks, aggregator runs and
    samplings, at most one account-detail fetch is outstanding, and one
    is outstanding only while [isRefreshing] holds. *)
Theorem clicks_coalesced (t0 : number) (es : list Event) (ss : Session) :
  forallb (fun e => negb (socketRefreshEvent e)) es = true ->
  reactAll StringToNumber es (mkSession (initialState t0) []) = Some ss ->
  coalesced ss.
Proof.
  assert (Hgen : forall es ss0 ss',
             forallb (fun e => negb (socketRefreshEvent e)) es = true ->
             reactAll StringToNumber es ss0 = Some ss' ->
             coalesced ss0 -> coalesced ss').
  { clear. induction es as [|e es IH]; simpl; intros ss0 ss' Hes Hrun H.
    - now injection Hrun as <-.
    - apply andb_true_iff in Hes as [He Hes]. apply negb_true_iff in He.
      destruct (react StringToNumber e ss0) as [ss1|] eqn:Hr; [|discriminate].
      apply (IH ss1 ss' Hes Hrun). now apply (react_coalesced e ss0). }
  intros Hes Hrun. apply (Hgen es _ ss Hes Hrun).
  split; simpl; [lia | congruence].
Qed.

End Coalescing.

Lemma clicks_coalesced_witness :
  exists ss,
    reactAll readProfit
      [SessionInput (ViewAccountDetails "A");
       SessionInput (ViewAccountDetails "B");
       InterpolationTick 1500%Q (fun _ => (3 # 4)%Q);
       SessionInput (DetailSettled 2000%Q 0 ResponseNotOk);
       SessionInput (ViewAccountDetails "B")]
      (mkSession (initialState 0%Q) []) = Some ss /\
    inFlight ss = [Some "B"] /\
    coalesced ss.
Proof.
  eexists. split; [reflexivity|]. split; [reflexivity|].
  apply (clicks_coalesced readProfit 0%Q
           [SessionInput (ViewAccountDetails "A");
            SessionInput (ViewAccountDetails "B");
            InterpolationTick 1500%Q (fun _ => (3 # 4)%Q);
            SessionInput (DetailSettled 2000%Q 0 ResponseNotOk);
            SessionInput (ViewAccountDetails "B")]);
    reflexivity.
Defined.

(** ** Adding and removing accounts *)

Lemma str_or_nonempty (a : option string) (b : string) :
  b <> "" -> str_or a b <> "".
Proof.
  intros Hb. unfold str_or. destruct a as [x|]; [|exact Hb].
  destruct (String.eqb x "") eqn:E; [exact Hb|]. now apply String.eqb_neq.
Qed.

(** X10.  Submitting the modal with an empty login, server or password
    sends no request at all: the modal shows "All required fields must
    be filled", keeps what was typed, stays open and is no longer
    submitting, and the dashboard state is untouched. *)
Theorem submitAccount_validates (post : PostResponse) (listResponse : ListResponse)
    (m : ModalState) (s : HomeState) :
  form_login (formData m) = "" \/ form_server (formData m) = "" \/
  form_password (formData m) = "" ->
  submitAccount post listResponse m s =
  (mkModalState (formData m) false (Some "All required fields must be filled"),
   false, s, []).
Proof.
  intros H. unfold submitAccount, addAccount.
  assert (Hempty : String.eqb (form_login (formData m)) ""
                   || String.eqb (form_server (formData m)) ""
                   || String.eqb (form_password (formData m)) "" = true).
  { destruct H as [H|[H|H]]; rewrite H; simpl;
      rewrite ?orb_true_r; reflexivity. }
  rewrite Hempty. reflexivity.
Qed.

Lemma submitAccount_validates_witness :
  submitAccount PostOk (ListOk [accountB])
    (mkModalState (mkAccountFormData "12345" "" "secret" None) false None)
    (stateWith [accountA [eurusd]]) =
  (mkModalState (mkAccountFormData "12345" "" "secret" None) false
     (Some "All required fields must be filled"),
   false, stateWith [accountA [eurusd]], []).
Proof.
  apply (submitAccount_validates PostOk (ListOk [accountB])
           (mkModalState (mkAccountFormData "12345" "" "secret" None) false None)
           (stateWith [accountA [eurusd]])).
  right. left. reflexivity.
Defined.

(** X11.  Submitting the modal with all required fields filled sends the
    POST first.  The modal closes, and only then is the form cleared,
    exactly when the POST succeeds; the account list is then fetched
    again.  When the POST fails the form is kept, a non-empty message is
    shown (the [error] of the response body when it has a non-empty one,
    "Failed to add account" when the body is not JSON or has none), the
    account list is not fetched and the account table is unchanged.  In
    every case the modal is no longer submitting. *)
Theorem submitAccount_outcome (post : PostResponse) (listResponse : ListResponse)
    (m : ModalState) (s : HomeState) :
  form_login (formData m) <> "" -> form_server (formData m) <> "" ->
  form_password (formData m) <> "" ->
  let '(m', closed, s', requests) := submitAccount post listResponse m s in
  isSubmitting m' = false /\
  head requests = Some (PostAccount (formData m)) /\
  (post = PostOk ->
   closed = true /\ formData m' = emptyForm /\ modal_error m' = None /\
   requests = [PostAccount (formData m); GetAccounts] /\
   s' = refreshAccounts listResponse s) /\
  (post <> PostOk ->
   closed = false /\ formData m' = formData m /\
   requests = [PostAccount (formData m)] /\ s' = s) /\
  (forall body, post = PostNotOk body ->
     exists message, modal_error m' = Some message /\ message <> "" /\
       (forall e, body = Some (Some e) -> e <> "" -> message = e) /\
       (body = None \/ body = Some None -> message = "Failed to add account")).
Proof.
  intros Hl Hs Hp. unfold submitAccount, addAccount.
  apply String.eqb_neq in Hl, Hs, Hp. rewrite Hl, Hs, Hp. simpl.
  destruct post as [|body|e]; simpl.
  - repeat split; try reflexivity; try congruence;
      try (intros body Hb; discriminate).
  - repeat split; try reflexivity; try congruence.
    intros body' [= <-]. eexists. split; [reflexivity|].
    split; [now apply str_or_nonempty|]. split.
    + intros e -> He. simpl. apply String.eqb_neq in He. now rewrite He.
    + intros [-> | ->]; reflexivity.
  - repeat split; try reflexivity; try congruence;
      try (intros body Hb; discriminate).
Qed.

Lemma submitAccount_outcome_witness :
  let '(m', closed, s', requests) :=
    submitAccount (PostNotOk (Some (Some "Invalid credentials")))
      (ListOk [accountB]) (mkModalState filledForm false None)
      (stateWith [accountA [eurusd]]) in
  closed = false /\
  exists message, modal_error m' = Some message /\ message = "Invalid credentials".
Proof.
  pose proof (submitAccount_outcome (PostNotOk (Some (Some "Invalid credentials")))
                (ListOk [accountB]) (mkModalState filledForm false None)
                (stateWith [accountA [eurusd]])) as H.
  simpl in H. simpl.
  destruct H as (_ & _ & _ & Hfail & Hmsg); try discriminate.
  split; [now apply Hfail|].
  destruct (Hmsg _ eq_refl) as (message & Hm & _ & He & _).
  exists message. split; [exact Hm|]. apply He; [reflexivity | discriminate].
Defined.

(** X12.  [removeAccount] on the account that is both selected and first
    in a table of two or more, as the render of the click saw it,
    re-selects that very account: once the refreshed list no longer
    contains it, the selection names an account that is not in the
    table and the dashboard has no selected account data.  A DELETE
    that fails rejects and changes nothing. *)
Theorem removeAccount_selection (s : HomeState) (first second : AccountData)
    (rest accs' : list AccountData) :
  accounts s = first :: second :: rest ->
  selectedAccount s = Some (accountId first) ->
  Forall (fun a => accountId a <> accountId first) accs' ->
  let '(outcome, s', requests) :=
    removeAccount (homeClosure s) (accountId first) DeleteOk (ListOk accs') s in
  outcome = Resolved true /\
  requests = [DeleteAccount (accountId first); GetAccounts] /\
  accounts s' = accs' /\
  selectedAccount s' = Some (accountId first) /\
  selectedAccountData s' = None /\
  removeAccount (homeClosure s) (accountId first) DeleteNotOk (ListOk accs') s =
  (Rejected (ErrorObject "Failed to remove account"), s,
   [DeleteAccount (accountId first)]).
Proof.
  intros Haccs Hsel Hgone. unfold removeAccount, homeClosure. simpl.
  rewrite Hsel, Haccs. simpl. rewrite String.eqb_refl. simpl.
  repeat split. unfold selectedAccountData. simpl.
  induction Hgone as [|a accs Ha _ IH]; simpl; [reflexivity|].
  apply String.eqb_neq in Ha. now rewrite Ha.
Qed.

Lemma removeAccount_selection_witness :
  let s := stateWith [accountA [eurusd]; accountB] in
  let '(outcome, s', requests) :=
    removeAccount (homeClosure s) "A" DeleteOk (ListOk [accountB]) s in
  selectedAccount s' = Some "A" /\ selectedAccountData s' = None.
Proof.
  pose proof (removeAccount_selection (stateWith [accountA [eurusd]; accountB])
                (accountA [eurusd]) accountB [] [accountB] eq_refl eq_refl) as H.
  simpl in H. destruct H as (_ & _ & _ & H1 & H2 & _).
  - repeat constructor. discriminate.
  - split; [exact H1 | exact H2].
Defined.

(** X13.  When the initial [GET /accounts] succeeds with a non-empty
    list, the table is that list and the selected account data is its
    first account; with an empty list nothing is selected anew.  When it
    fails, the table and the selection are untouched and an error text
    is stored.  In every case [loading] ends up [false]. *)
Theorem fetchAccounts_selects_first (response : ListResponse) (s : HomeState)
    (c : LoadCells) :
  let '(s', c') := fetchAccounts response s c in
  loading c' = false /\
  (forall first rest, response = ListOk (first :: rest) ->
     accounts s' = first :: rest /\
     selectedAccount s' = Some (accountId first) /\
     selectedAccountData s' = Some first /\
     page_error c' = page_error c) /\
  (response = ListOk [] ->
     accounts s' = [] /\ selectedAccount s' = selectedAccount s) /\
  (response = ListNotOk ->
     s' = s /\ page_error c' = Some "Failed to fetch accounts") /\
  (forall e, response = ListRejected e ->
     s' = s /\ page_error c' = Some (errorMessage e "An error occurred")).
Proof.
  destruct response as [[|first rest]| |e]; simpl;
    (split; [reflexivity|]); (split; [|split; [|split]]);
    try (intros; discriminate).
  - intros _. now split.
  - intros f r [= <- <-]. repeat split.
    unfold selectedAccountData. simpl. now rewrite String.eqb_refl.
  - intros _. now split.
  - intros e' [= <-]. now split.
Qed.

Lemma fetchAccounts_selects_first_witness :
  selectedAccountData
    (fetchAccounts (ListOk [accountB; accountA [eurusd]]) (initialState 0%Q)
       (mkLoadCells true None)).1 = Some accountB.
Proof.
  pose proof (fetchAccounts_selects_first (ListOk [accountB; accountA [eurusd]])
                (initialState 0%Q) (mkLoadCells true None)) as H.
  simpl in H. destruct H as (_ & H & _).
  now destruct (H accountB [accountA [eurusd]] eq_refl) as (_ & _ & Hsel & _).
Defined.

(** ** Derived display values *)

Lemma num_lt_true (a b : number) : num_lt a b = true <-> (a < b)%Q.
Proof.
  unfold num_lt. rewrite Qlt_alt. destruct (a ?= b)%Q; split; congruence.
Qed.

Lemma num_lt_false (a b : number) : num_lt a b = false <-> (b <= a)%Q.
Proof.
  rewrite <- not_true_iff_false, num_lt_true. split; [apply Qnot_lt_le|].
  intros Hle Hlt. apply (Qlt_irrefl a). eapply Qlt_le_trans; eassumption.
Qed.

(** X14.  The data-quality dot is drawn first and its caption after it,
    each reading the clock anew for every age test.  Nothing is drawn
    for a missing timestamp, and while a refresh is in flight the pair
    is blue and "Refreshing".  Otherwise the caption is "Real-time"
    when its first reading is less than 4 seconds after the last real
    data, "Recent" when that reading is 4 seconds or more and its second
    is less than 10, and "Stale" when the second is 10 or more; the dot
    is emerald, yellow and red on the same tests of its own readings.
    With readings that coincide the dot and the caption belong
    together; with readings that only do not decrease, the caption is
    never fresher than the dot. *)
Theorem dataQuality_classes (n1 n2 n3 n4 : number) (s : HomeState) :
  let colour := dataQualityColor n1 n2 s in
  let label := dataQualityLabel n3 n4 s in
  (lastRealDataUpdate s = None -> colour = None /\ label = None) /\
  (forall t, lastRealDataUpdate s = Some t -> ~ (t == 0)%Q ->
     (isRefreshing s = true ->
        colour = Some "bg-blue-500" /\ label = Some "Refreshing") /\
     (isRefreshing s = false ->
        ((n3 - t < 4000)%Q -> label = Some "Real-time") /\
        ((4000 <= n3 - t)%Q -> (n4 - t < 10000)%Q -> label = Some "Recent") /\
        ((4000 <= n3 - t)%Q -> (10000 <= n4 - t)%Q -> label = Some "Stale") /\
        ((n1 - t < 4000)%Q -> colour = Some "bg-emerald-500") /\
        ((4000 <= n1 - t)%Q -> (n2 - t < 10000)%Q ->
         colour = Some "bg-yellow-500") /\
        ((4000 <= n1 - t)%Q -> (10000 <= n2 - t)%Q ->
         colour = Some "bg-red-500"))) /\
  (n1 = n3 -> n2 = n4 ->
   (colour, label) = (None, None) \/
   (colour, label) = (Some "bg-blue-500", Some "Refreshing") \/
   (colour, label) = (Some "bg-emerald-500", Some "Real-time") \/
   (colour, label) = (Some "bg-yellow-500", Some "Recent") \/
   (colour, label) = (Some "bg-red-500", Some "Stale")) /\
  ((n1 <= n2)%Q -> (n2 <= n3)%Q -> (n3 <= n4)%Q ->
   (colour = Some "bg-yellow-500" -> label <> Some "Real-time") /\
   (colour = Some "bg-red-500" -> label = Some "Stale")).
Proof.
  cbv zeta. unfold dataQualityColor, dataQualityLabel.
  split; [|split; [|split]].
  - now intros ->.
  - intros t -> Ht. apply truthy_true in Ht. rewrite Ht. split.
    + now intros ->.
    + intros ->.
      split; [|split; [|split; [|split; [|split]]]].
      * intros H. apply num_lt_true in H. now rewrite H.
      * intros H4 H10. apply num_lt_false in H4. apply num_lt_true in H10.
        now rewrite H4, H10.
      * intros H4 H10. apply num_lt_false in H4, H10. now rewrite H4, H10.
      * intros H. apply num_lt_true in H. now rewrite H.
      * intros H4 H10. apply num_lt_false in H4. apply num_lt_true in H10.
        now rewrite H4, H10.
      * intros H4 H10. apply num_lt_false in H4, H10. now rewrite H4, H10.
  - intros <- <-.
    destruct (lastRealDataUpdate s) as [t|]; [|now left].
    destruct (truthy t); [|now left].
    destruct (isRefreshing s); [now right; left|].
    destruct (num_lt (n1 - t)%Q 4000%Q); [now right; right; left|].
    destruct (num_lt (n2 - t)%Q 10000%Q);
      [now right; right; right; left | now right; right; right; right].
  - intros H12 H23 H34.
    destruct (lastRealDataUpdate s) as [t|]; [|split; discriminate].
    destruct (truthy t); [|split; discriminate].
    destruct (isRefreshing s); [split; discriminate|].
    destruct (num_lt (n1 - t)%Q 4000%Q) eqn:E1; [split; discriminate|].
    apply num_lt_false in E1.
    assert (E3 : num_lt (n3 - t)%Q 4000%Q = false)
      by (apply num_lt_false; lra).
    rewrite E3.
    destruct (num_lt (n2 - t)%Q 10000%Q) eqn:E2.
    + split; [|discriminate]. intros _.
      destruct (num_lt (n4 - t)%Q 10000%Q); discriminate.
    + apply num_lt_false in E2.
      assert (E4 : num_lt (n4 - t)%Q 10000%Q = false)
        by (apply num_lt_false; lra).
      rewrite E4. split; [discriminate | reflexivity].
Qed.

Lemma dataQuality_classes_witness :
  dataQualityLabel 9000%Q 9001%Q
    (setLastRealDataUpdate 2000%Q (initialState 0%Q)) = Some "Recent".
Proof.
  destruct (dataQuality_classes 8998%Q 8999%Q 9000%Q 9001%Q
              (setLastRealDataUpdate 2000%Q (initialState 0%Q)))
    as (_ & H & _).
  destruct (H 2000%Q eq_refl) as [_ Hidle]; [discriminate|].
  destruct (Hidle eq_refl) as (_ & Hrecent & _).
  apply Hrecent; unfold Qle, Qlt; simpl; lia.
Defined.

(** Across the 4-second boundary the dot and the caption differ: the dot
    is drawn at 3999 ms of age, the caption at 4000 ms. *)
Example dataQuality_straddles :
  let s := setLastRealDataUpdate 2000%Q (initialState 0%Q) in
  dataQualityColor 5999%Q 5999%Q s = Some "bg-emerald-500" /\
  dataQualityLabel 6000%Q 6000%Q s = Some "Recent".
Proof. split; reflexivity. Qed.

Lemma SparkLine_some (data : list number) :
  2 <= length data ->
  exists points, SparkLine data = Some points /\ length points = length data.
Proof.
  intros Hlen. destruct data as [|v0 [|v1 rest]]; simpl in Hlen; try lia.
  eexists. split; [reflexivity|]. apply length_imap.
Qed.

Lemma sparkLine_guarded (history : list PnLHistoryItem) :
  Nat.ltb 1 (length history) = true ->
  exists points,
    SparkLine (map value history) = Some points /\
    length points = length history /\ 2 <= length points.
Proof.
  intros H. apply Nat.ltb_lt in H.
  destruct (SparkLine_some (map value history)) as (points & Hp & Hlen).
  - rewrite length_map. lia.
  - exists points. rewrite length_map in Hlen. repeat split; [exact Hp | | ]; lia.
Qed.

(** X15.  Wherever the dashboard renders a sparkline, the component
    draws: the guards at both call sites pass it at least two values, so
    it never returns [null] there, and it yields one point per recorded
    sample.  After any run of the sampler that is between 2 and 60
    points. *)
Theorem sparkLines_always_draw (t0 : number) (xs : list Sample) (sym : string) :
  let s := foldl sampleStep (initialState t0) xs in
  (forall r, netSparkLine s = Some r ->
     exists points, r = Some points /\
       length points = length (pnlHistory s) /\ 2 <= length points <= 60) /\
  (forall r, symbolSparkLine sym s = Some r ->
     exists points history,
       r = Some points /\ pnlHistoryBySymbol s !! sym = Some history /\
       length points = length history /\ 2 <= length points <= 60).
Proof.
  destruct (sampleRun_histories t0 xs) as [Hnet Hsym]. simpl in *.
  set (s := foldl sampleStep (initialState t0) xs) in *.
  split.
  - unfold netSparkLine. intros r Hr.
    destruct (Nat.ltb 1 (length (pnlHistory s))) eqn:Hguard; [|discriminate].
    injection Hr as <-.
    destruct (sparkLine_guarded _ Hguard) as (points & Hp & Hlen & H2).
    exists points. split; [exact Hp|]. split; [exact Hlen|]. split; [exact H2|].
    rewrite Hlen, Hnet. apply slice_last_length.
  - unfold symbolSparkLine. intros r Hr. specialize (Hsym sym).
    destruct (pnlHistoryBySymbol s !! sym) as [history|]; [|discriminate].
    destruct (Nat.ltb 1 (length history)) eqn:Hguard; [|discriminate].
    injection Hr as <-.
    destruct (sparkLine_guarded _ Hguard) as (points & Hp & Hlen & H2).
    exists points, history. split; [exact Hp|]. split; [reflexivity|].
    split; [exact Hlen|]. split; [exact H2|].
    simpl in Hsym. rewrite Hlen, Hsym. apply slice_last_length.
Qed.

Lemma sparkLines_always_draw_witness :
  let xs := [mkSample 5000%Q 1%Q {[ "EURUSD" := 1%Q ]};
             mkSample 10000%Q (7 # 2)%Q {[ "EURUSD" := (7 # 2)%Q ]}] in
  exists points,
    netSparkLine (foldl sampleStep (initialState 0%Q) xs) = Some (Some points) /\
    length points = 2.
Proof.
  destruct (sparkLines_always_draw 0%Q
              [mkSample 5000%Q 1%Q {[ "EURUSD" := 1%Q ]};
               mkSample 10000%Q (7 # 2)%Q {[ "EURUSD" := (7 # 2)%Q ]}] "EURUSD")
    as [Hnet _].
  destruct (Hnet _ eq_refl) as (points & Hp & Hlen & _).
  exists points. split; [now rewrite <- Hp | exact Hlen].
Defined.

(** ** Authentication *)

(** X16.  Logging out never reports a failure.  [logout] swallows a
    non-2xx status and a rejected fetch alike, so [handleLogout] always
    ends with no error text, not logging out any more, and a navigation
    to the login page; when the request failed the provider still
    counts the operator as authenticated as before. *)
Theorem logout_never_fails (response : LogoutResponse) (a : AuthState) :
  let '(outcome, a', navigations) := logout response a in
  let '(cells, navigations') := handleLogout outcome in
  outcome = Resolved tt /\
  logoutError cells = None /\ isLoggingOut cells = false /\
  navigations' = ["/login"] /\
  isLoading a' = false /\
  (response = LogoutOk -> isAuthenticated a' = false /\ navigations = ["/login"]) /\
  (response <> LogoutOk ->
   isAuthenticated a' = isAuthenticated a /\ navigations = []).
Proof.
  destruct response; simpl; repeat split; intros; congruence.
Qed.

(** X17.  With the token-based provider [login] never rejects, so the
    login page never shows an error and always navigates to "/",
    whatever the server answered.  After a failed login local storage
    and the authentication flag are as before.  After a successful one
    the token is stored, and a reload authenticates exactly when the
    stored text is non-empty: a body without a [token] stores the text
    "undefined" and authenticates, an empty token does not.  The key the
    [AuthGuard] component reads is never written. *)
Theorem tokenLogin_round_trip (response : LoginResponse)
    (localStorage : gmap string string) (a : AuthState) :
  let '(outcome, localStorage', a', navigations) :=
    tokenLogin response localStorage a in
  outcome = Resolved tt /\
  loginSubmit outcome = (mkLoginPageState "" false, ["/"]) /\
  isLoading a' = false /\
  AuthGuard localStorage' = AuthGuard localStorage /\
  (forall token, response = LoginOk token ->
     isAuthenticated a' = true /\
     localStorage' !! "authToken" = Some (default "undefined" token) /\
     isAuthenticated (verifyAuth localStorage' initialAuth) =
     negb (String.eqb (default "undefined" token) "")) /\
  ((forall token, response <> LoginOk token) ->
   localStorage' = localStorage /\ isAuthenticated a' = isAuthenticated a /\
   navigations = []).
Proof.
  destruct response as [token|message|e]; simpl.
  - split; [reflexivity|]. split; [reflexivity|]. split; [reflexivity|].
    split; [|split].
    + unfold AuthGuard. now rewrite lookup_insert_ne.
    + intros token' [= <-]. split; [reflexivity|].
      unfold verifyAuth. rewrite lookup_insert_eq. now split.
    + intros H. now destruct (H token).
  - repeat split; intros; congruence.
  - repeat split; intros; congruence.
Qed.

Lemma tokenLogin_round_trip_witness :
  let '(outcome, localStorage', a', navigations) :=
    tokenLogin (LoginOk None) ∅ initialAuth in
  isAuthenticated (verifyAuth localStorage' initialAuth) = true.
Proof.
  pose proof (tokenLogin_round_trip (LoginOk None) ∅ initialAuth) as H.
  simpl in H. simpl. destruct H as (_ & _ & _ & _ & Hok & _).
  destruct (Hok None eq_refl) as (_ & _ & Hreload). exact Hreload.
Defined.

(** X18.  With the cookie-based provider a login the server refuses is
    reported: the login page shows the [message] of the response body
    when it has a non-empty one and "Login failed" otherwise, so never
    an empty text; it does not navigate, and the operator is
    authenticated no more than before.  A login the server accepts sets
    the flag and navigates to "/".  In every case neither the provider
    nor the page is left loading. *)
Theorem cookieLogin_reports (response : LoginResponse) (a : AuthState) :
  let '(outcome, a', navigations) := cookieLogin response a in
  let '(page, navigations') := loginSubmit outcome in
  isLoading a' = false /\ login_isLoading page = false /\
  (forall token, response = LoginOk token ->
     isAuthenticated a' = true /\ login_error page = "" /\
     navigations = ["/"] /\ navigations' = ["/"]) /\
  (forall message, response = LoginNotOk message ->
     login_error page = str_or message "Login failed" /\
     login_error page <> "" /\
     isAuthenticated a' = isAuthenticated a /\
     navigations = [] /\ navigations' = []).
Proof.
  destruct response as [token|message|e]; simpl.
  - repeat split; intros; congruence.
  - split; [reflexivity|]. split; [reflexivity|]. split; [intros; discriminate|].
    intros message' [= <-]. split; [reflexivity|].
    split; [now apply str_or_nonempty | now repeat split].
  - repeat split; intros; congruence.
Qed.

Lemma cookieLogin_reports_witness :
  let '(outcome, a', navigations) :=
    cookieLogin (LoginNotOk (Some "Wrong password")) initialAuth in
  login_error (loginSubmit outcome).1 <> "" /\ navigations = [].
Proof.
  pose proof (cookieLogin_reports (LoginNotOk (Some "Wrong password")) initialAuth)
    as H.
  simpl in H. simpl. destruct H as (_ & _ & _ & Hfail).
  destruct (Hfail _ eq_refl) as (_ & Hne & _ & Hnav & _).
  split; [exact Hne | exact Hnav].
Defined.

(** X19.  The dashboard redirects to the login page only once the
    provider has finished verifying: not while it is loading, and
    afterwards exactly when local storage holds no non-empty
    [authToken]. *)
Theorem authRedirect_after_verification (localStorage : gmap string string) :
  authRedirect initialAuth = [] /\
  (authRedirect (verifyAuth localStorage initialAuth) = [] <->
   exists token, localStorage !! "authToken" = Some token /\ token <> "").
Proof.
  split; [reflexivity|]. unfold verifyAuth, authRedirect.
  destruct (localStorage !! "authToken") as [token|]; simpl.
  - destruct (String.eqb token "") eqn:E; simpl.
    + apply String.eqb_eq in E. split; [discriminate|].
      intros (t & [= <-] & Hne). contradiction.
    + apply String.eqb_neq in E. split; [|reflexivity].
      intros _. now exists token.
  - split; [discriminate|]. intros (t & Ht & _). discriminate.
Qed.

(** ** Removal composed with itself and with an update *)

Lemma filter_twice {A : Type} (f : A -> bool) (l : list A) :
  List.filter f (List.filter f l) = List.filter f l.
Proof.
  induction l as [|x l IH]; simpl; [reflexivity|].
  destruct (f x) eqn:Hx; simpl; [|exact IH]. rewrite Hx. now f_equal.
Qed.

Lemma filter_after_update (now : number) (data : Message)
    (payload : PositionPayload) (ps : list Position) :
  p_id payload = None \/ p_id payload = data_positionId data ->
  List.filter (fun p => negb (str_eq (id p) (data_positionId data)))
    (map (fun pos => if str_eq (id pos) (data_positionId data)
                     then applyPositionUpdate now payload pos
                     else pos) ps) =
  List.filter (fun p => negb (str_eq (id p) (data_positionId data))) ps.
Proof.
  intros Hid. induction ps as [|p ps IH]; simpl; [reflexivity|].
  destruct (str_eq (id p) (data_positionId data)) eqn:Hp; simpl.
  - assert (Hkeep : str_eq (default (id p) (p_id payload)) (data_positionId data)
                    = true).
    { destruct Hid as [-> | ->]; simpl; [exact Hp|].
      apply str_eq_true in Hp. rewrite Hp. simpl. apply String.eqb_refl. }
    rewrite Hkeep. simpl. exact IH.
  - rewrite Hp. simpl. now rewrite IH.
Qed.

(** X20.  Removing a position twice is removing it once, and a removal
    absorbs an earlier update of the same position: when the payload
    leaves the id alone, a [positionUpdated] followed by a
    [positionRemoved] for the same account and position gives the table
    the removal alone gives. *)
Theorem positionRemoved_absorbs (now : number) (data : Message)
    (payload : PositionPayload) (accs : list AccountData) :
  p_id payload = None \/ p_id payload = data_positionId data ->
  positionRemoved data (positionRemoved data accs) = positionRemoved data accs /\
  positionRemoved data (positionUpdated now data payload accs) =
  positionRemoved data accs.
Proof.
  intros Hid. unfold positionRemoved, positionUpdated. rewrite !map_map. split.
  - apply map_ext. intros a.
    destruct (str_eq (accountId a) (data_accountId data)) eqn:Ha; simpl;
      rewrite Ha; simpl; [|reflexivity].
    unfold withPositions. simpl. do 2 f_equal. apply filter_twice.
  - apply map_ext. intros a.
    destruct (str_eq (accountId a) (data_accountId data)) eqn:Ha; simpl;
      rewrite Ha; simpl; [|reflexivity].
    unfold withPositions. simpl. do 2 f_equal.
    now apply filter_after_update.
Qed.

Lemma positionRemoved_absorbs_witness :
  positionRemoved (positionMessage "positionRemoved" None)
    (positionUpdated 2000%Q (positionMessage "positionUpdated" None)
       (pricePayload (11020 # 10000)%Q None) [accountA [eurusd; gbpusd]]) =
  [accountA [gbpusd]].
Proof.
  destruct (positionRemoved_absorbs 2000%Q (positionMessage "positionRemoved" None)
              (pricePayload (11020 # 10000)%Q None) [accountA [eurusd; gbpusd]])
    as [_ H]; [now left|].
  exact H.
Defined.

(** ** What an authoritative update leaves alone *)

(** X21.  A [positionUpdated] message adds and removes nothing: every
    account keeps its place, id, flags, metadata and orders; an account
    with another id is untouched; in an addressed account that has a
    position array every position keeps its place, and a position with
    another id is untouched. *)
Theorem positionUpdated_frame (now : number) (data : Message)
    (payload : PositionPayload) (accs : list AccountData) (i : nat)
    (account : AccountData) :
  accs !! i = Some account ->
  length (positionUpdated now data payload accs) = length accs /\
  exists account',
    positionUpdated now data payload accs !! i = Some account' /\
    accountId account' = accountId account /\
    connected account' = connected account /\
    connectedToBroker account' = connectedToBroker account /\
    accountInfo account' = accountInfo account /\
    orders account' = orders account /\
    (str_eq (accountId account) (data_accountId data) = false ->
     account' = account) /\
    (forall ps, positions account = Some ps ->
       exists ps', positions account' = Some ps' /\ length ps' = length ps /\
         forall j p, ps !! j = Some p ->
           str_eq (id p) (data_positionId data) = false -> ps' !! j = Some p).
Proof.
  intros Hi. unfold positionUpdated. split; [apply length_map|].
  rewrite map_fmap, list_lookup_fmap, Hi. simpl.
  destruct (str_eq (accountId account) (data_accountId data)) eqn:Ha; simpl.
  - eexists. split; [reflexivity|]. simpl.
    do 5 (split; [reflexivity|]). split; [discriminate|].
    intros ps Hps. rewrite Hps. simpl. eexists. split; [reflexivity|].
    split; [apply length_map|].
    intros j p Hj Hp. rewrite map_fmap, list_lookup_fmap, Hj. simpl.
    now rewrite Hp.
  - exists account. split; [reflexivity|].
    do 5 (split; [reflexivity|]). split; [reflexivity|].
    intros ps Hps. exists ps. split; [exact Hps|]. split; [reflexivity|].
    intros j p Hj _. exact Hj.
Qed.

Lemma positionUpdated_frame_witness :
  exists account' ps',
    positionUpdated 2000%Q (positionMessage "positionUpdated" None)
      (pricePayload 2%Q None) [accountA [eurusd; gbpusd]] !! 0%nat = Some account' /\
    positions account' = Some ps' /\ ps' !! 1%nat = Some gbpusd.
Proof.
  destruct (positionUpdated_frame 2000%Q (positionMessage "positionUpdated" None)
              (pricePayload 2%Q None) [accountA [eurusd; gbpusd]] 0%nat
              (accountA [eurusd; gbpusd]) eq_refl)
    as (_ & account' & H1 & _ & _ & _ & _ & _ & _ & Hps).
  destruct (Hps [eurusd; gbpusd] eq_refl) as (ps' & Hps' & _ & Hother).
  exists account', ps'. split; [exact H1|]. split; [exact Hps'|].
  apply Hother; reflexivity.
Defined.

(** X22.  An account-metadata message touches metadata only: every
    account keeps its place, id, flags, positions and orders; an account
    with another id is untouched; an addressed account takes the
    [accountInformation] of the message when it carries one and keeps
    its own otherwise. *)
Theorem updateAccountInfo_frame (data : Message) (accs : list AccountData)
    (i : nat) (account : AccountData) :
  accs !! i = Some account ->
  length (updateAccountInfo data accs) = length accs /\
  exists account',
    updateAccountInfo data accs !! i = Some account' /\
    accountId account' = accountId account /\
    connected account' = connected account /\
    connectedToBroker account' = connectedToBroker account /\
    positions account' = positions account /\
    orders account' = orders account /\
    (str_eq (accountId account) (data_accountId data) = false ->
     account' = account) /\
    (str_eq (accountId account) (data_accountId data) = true ->
     (forall info, data_accountInformation data = Some info ->
        accountInfo account' = Some info) /\
     (data_accountInformation data = None ->
        accountInfo account' = accountInfo account)).
Proof.
  intros Hi. unfold updateAccountInfo. split; [apply length_map|].
  rewrite map_fmap, list_lookup_fmap, Hi. simpl.
  destruct (str_eq (accountId account) (data_accountId data)) eqn:Ha; simpl.
  - eexists. split; [reflexivity|]. simpl.
    do 5 (split; [reflexivity|]). split; [discriminate|].
    intros _. split.
    + intros info Hinfo. now rewrite Hinfo.
    + intros Hinfo. now rewrite Hinfo.
  - exists account. split; [reflexivity|].
    do 5 (split; [reflexivity|]). split; [reflexivity | discriminate].
Qed.

Lemma updateAccountInfo_frame_witness :
  exists account',
    updateAccountInfo (messageFor "accountInformationUpdated" "A" None)
      [accountA [eurusd]] !! 0%nat = Some account' /\
    positions account' = Some [eurusd] /\
    accountInfo account' = Some (mkAccountInfo (Some "B") None None None None).
Proof.
  destruct (updateAccountInfo_frame
              (messageFor "accountInformationUpdated" "A" None)
              [accountA [eurusd]] 0%nat (accountA [eurusd]) eq_refl)
    as (_ & account' & H1 & _ & _ & _ & Hps & _ & _ & Hinfo).
  exists account'. split; [exact H1|]. split; [exact Hps|].
  destruct (Hinfo eq_refl) as [Hsome _]. now apply Hsome.
Defined.
